(** * Order execution and realtime stream core of the polymarket-apis client

    A shallow embedding of the parts of
    [clients/clob_client.py], [clients/gamma_client.py] and
    [clients/websockets_client.py] that validate, price and submit orders,
    page through list endpoints and dispatch websocket frames.

    Conventions of the embedding:
    - a Python [float] price or size and a tick size string such as ["0.01"]
      are the exact rational they denote ([Q]); rounding of binary floating
      point is outside the model;
    - a Python [int] is a [Z];
    - a method of the client is a computation in the monad [M]: it reads and
      updates the client object, and either returns or raises;
    - what the exchange, the signer and the websocket peers answer is a
      parameter (a class of collaborators or an explicit argument). *)

From Stdlib Require Import ZArith QArith Lia Lqa.
From stdpp Require Import base gmap strings list sorting.

(** ** Rational comparisons used by the numeric checks *)

Definition Qltb (a b : Q) : bool := negb (Qle_bool b a).

(** ** JSON values, as [json.loads] and [response.json()] return them *)

#[local] Unset Elimination Schemes.
Inductive JSON : Type :=
| JNull
| JBool (b : bool)
| JNumber (q : Q)
| JString (s : string)
| JArray (items : list JSON)
| JObject (fields : list (string * JSON)).
#[local] Set Elimination Schemes.

(** [d.get(key)] on a dict. *)
Fixpoint dict_get (fields : list (string * JSON)) (key : string)
  : option JSON :=
  match fields with
  | [] => None
  | (k, v) :: rest => if String.eqb k key then Some v else dict_get rest key
  end.

(** An [httpx.Response]: the status code and the body, [None] when the
    body is not JSON (then [response.json()] raises). *)
Record Response : Type := mkResponse {
  status_code : Z;
  body : option JSON
}.

(** Exceptions that come from outside the client: httpx, json, dict and
    pydantic operations, and the signer. *)
Inductive ExternalExn : Type :=
| HTTPStatusError (response : Response)
| RequestError        (* httpx.RequestError: no response was received *)
| JSONDecodeError
| KeyError
| TypeError
| ValidationError
| SignerError.

(** The answer of a collaborator: a value, or one of its exceptions. *)
Inductive Reply (A : Type) : Type :=
| Got (a : A)
| Fault (e : ExternalExn).
Arguments Got {A} a.
Arguments Fault {A} e.

Module Clob.

(** ** Exceptions, results and the client monad *)

(** The exceptions of [utilities/exceptions.py] that the client raises, the
    [ValueError] of [calculate_market_price], and the external ones. *)
Inductive Exn : Type :=
| InvalidTickSizeError
| InvalidPriceError
| InvalidFeeRateError
| LiquidityError
| MissingOrderbookError
| ValueError
| External (e : ExternalExn).
Coercion External : ExternalExn >-> Exn.

(** The validation errors of the error taxonomy: tick size, price, fee
    rate and liquidity (insufficient depth or no order book). *)
Definition is_validation_error (e : Exn) : bool :=
  match e with
  | InvalidTickSizeError | InvalidPriceError | InvalidFeeRateError
  | LiquidityError | MissingOrderbookError => true
  | _ => false
  end.

Inductive Res (A : Type) : Type :=
| Ok (a : A)
| Raise (e : Exn).
Arguments Ok {A} a.
Arguments Raise {A} e.

(** The steps of order construction and submission. The client records
    each step it enters in [steps]; this field is ghost state of the model
    and is not read by any operation. *)
Inductive Step : Type :=
| ResolveTickSize
| DerivePrice
| ValidatePrice
| ResolveNegRisk
| ResolveFeeRate
| DelegateSigner
| Submit.

#[global] Instance Step_eq_dec : EqDecision Step.
Proof. solve_decision. Defined.

(** What [logger.warning] and [print] emit. *)
Inductive LogEntry : Type :=
| WarnClientError (status : Z)
| WarnOrderError (index : nat) (details : string)
| PrintDetails (details : JSON).

(** [PolymarketClobClient]: the three private caches of [__init__], the
    ghost step trace and the emitted diagnostics. *)
Record Client : Type := mkClient {
  tick_sizes : gmap string Q;
  neg_risk : gmap string bool;
  fee_rates : gmap string Z;
  steps : list Step;
  log : list LogEntry
}.

Definition new_client : Client :=
  {| tick_sizes := ∅; neg_risk := ∅; fee_rates := ∅; steps := []; log := [] |}.

Definition M (A : Type) : Type := Client -> Res A * Client.

Definition ret {A} (a : A) : M A := fun c => (Ok a, c).
Definition raise {A} (e : Exn) : M A := fun c => (Raise e, c).
Definition bind {A B} (m : M A) (k : A -> M B) : M B :=
  fun c => match m c with
           | (Ok a, c') => k a c'
           | (Raise e, c') => (Raise e, c')
           end.
Definition lift {A} (r : Res A) : M A := fun c => (r, c).

Definition call {A} (r : Reply A) : M A :=
  fun c => match r with
           | Got a => (Ok a, c)
           | Fault e => (Raise (External e), c)
           end.

Declare Scope client_scope.
Delimit Scope client_scope with client.
Notation "x <- m ;; k" := (bind m (fun x => k))
  (at level 100, m at next level, right associativity) : client_scope.
Notation "m ;;; k" := (bind m (fun _ => k))
  (at level 100, right associativity) : client_scope.
Open Scope client_scope.

Definition enter (s : Step) : M unit :=
  fun c => (Ok tt, {| tick_sizes := tick_sizes c; neg_risk := neg_risk c;
                      fee_rates := fee_rates c; steps := steps c ++ [s];
                      log := log c |}).

Definition emit (e : LogEntry) : M unit :=
  fun c => (Ok tt, {| tick_sizes := tick_sizes c; neg_risk := neg_risk c;
                      fee_rates := fee_rates c; steps := steps c;
                      log := log c ++ [e] |}).

Definition set_tick_size (token_id : string) (t : Q) : M unit :=
  fun c => (Ok tt, {| tick_sizes := <[token_id := t]> (tick_sizes c);
                      neg_risk := neg_risk c; fee_rates := fee_rates c;
                      steps := steps c; log := log c |}).

Definition set_neg_risk (token_id : string) (b : bool) : M unit :=
  fun c => (Ok tt, {| tick_sizes := tick_sizes c;
                      neg_risk := <[token_id := b]> (neg_risk c);
                      fee_rates := fee_rates c;
                      steps := steps c; log := log c |}).

Definition set_fee_rate (token_id : string) (f : Z) : M unit :=
  fun c => (Ok tt, {| tick_sizes := tick_sizes c; neg_risk := neg_risk c;
                      fee_rates := <[token_id := f]> (fee_rates c);
                      steps := steps c; log := log c |}).

(** [try: body except httpx.HTTPStatusError as exc: handler]. *)
Definition try_except_HTTPStatusError {A} (m : M A)
  (handler : Response -> M A) : M A :=
  fun c => match m c with
           | (Raise (External (HTTPStatusError r)), c') => handler r c'
           | other => other
           end.

(** ** Data of [types/clob_types.py] that the client reads *)

Inductive OrderType : Type := GTC | FOK | GTD | FAK.

Record OrderSummary : Type := mkLevel { price : Q; size : Q }.

Record OrderBookSummary : Type := mkBook {
  bids : option (list OrderSummary);
  asks : option (list OrderSummary)
}.

Record OrderArgs : Type := mkOrderArgs {
  token_id : string;
  order_price : Q;
  order_size : Q;
  order_side : string;
  fee_rate_bps : option Z
}.

Record MarketOrderArgs : Type := mkMarketOrderArgs {
  m_token_id : string;
  m_amount : Q;
  m_side : string;
  m_price : option Q;
  m_fee_rate_bps : option Z;
  m_order_type : OrderType
}.

Record PartialCreateOrderOptions : Type := mkPartialOptions {
  opt_tick_size : option Q;
  opt_neg_risk : option bool
}.

Record CreateOrderOptions : Type := mkOptions {
  tick_size : Q;
  is_neg_risk : bool
}.

Record OrderPostResponse : Type := mkOrderPostResponse {
  error_msg : string;
  order_id : string;
  success : bool
}.

(** ** The collaborators of the client *)

(** The exchange: what it answers to [GET /tick-size], [/neg-risk],
    [/fee-rate] and [/book] for a token, after [raise_for_status] and the
    field access ([Fault] stands for the exception the call raises; the fee
    endpoint may omit [base_fee]; a book may be absent), and what
    [http.post] gives for [POST /order] and [POST /orders]: a response, or
    no response at all. *)
Inductive HttpResult : Type :=
| Responded (r : Response)
| NoResponse.

Class Exchange (SignedOrder : Type) : Type := {
  tick_size_endpoint : string -> Reply Q;
  neg_risk_endpoint : string -> Reply bool;
  fee_rate_endpoint : string -> Reply (option Z);
  order_book_endpoint : string -> Reply (option OrderBookSummary);
  post_order_endpoint : SignedOrder -> OrderType -> HttpResult;
  post_orders_endpoint : list (SignedOrder * OrderType) -> HttpResult
}.

(** The signer ([OrderBuilder.create_order] and [.create_market_order]) and
    the pydantic constructor of [OrderPostResponse], which accepts or
    rejects the fields of a dict. *)
Class Builder (SignedOrder : Type) : Type := {
  builder_create_order :
    OrderArgs -> CreateOrderOptions -> Reply SignedOrder;
  builder_create_market_order :
    MarketOrderArgs -> CreateOrderOptions -> Reply SignedOrder;
  OrderPostResponse_validate :
    list (string * JSON) -> option OrderPostResponse
}.

(** ** Helpers of [utilities/order_builder] *)

(** Modelled from the spec: [is_tick_size_smaller] of
    [utilities/order_builder/helpers.py], which is not among the sources.
    A requested tick size is rejected when it is smaller (finer) than the
    market minimum. *)
Definition is_tick_size_smaller (a b : Q) : bool := Qltb a b.

(** Modelled from the spec: the test [p mod t == 0] of [price_valid], on
    rationals: [p / t] is an integer. *)
Definition is_multiple (p t : Q) : bool :=
  ((Qnum p * QDen t) mod (Qnum t * QDen p) =? 0)%Z.

(** Modelled from the spec: [price_valid] of
    [utilities/order_builder/helpers.py], which is not among the sources.
    A valid price is an exact multiple of the tick size and satisfies
    [tick_size <= price <= 1 - tick_size]. *)
Definition price_valid (p t : Q) : bool :=
  is_multiple p t && Qle_bool t p && Qle_bool p (1 - t).

(** Modelled from the spec: the favorable-to-the-taker order of the price
    discovery of [utilities/order_builder/builder.py], ascending prices
    for asks and descending prices for bids. *)
Definition ascending (a b : OrderSummary) : Prop := (price a <= price b)%Q.
Definition descending (a b : OrderSummary) : Prop := (price b <= price a)%Q.

#[global] Instance ascending_dec : RelDecision ascending.
Proof. intros a b. unfold ascending, Qle. apply _. Defined.

#[global] Instance descending_dec : RelDecision descending.
Proof. intros a b. unfold descending, Qle. apply _. Defined.

(** Modelled from the spec: the walk of the price discovery of
    [utilities/order_builder/builder.py]. Accumulate level sizes until the
    running total meets the amount; the answer is the price of the level
    at which it does. *)
Fixpoint walk_levels (levels : list OrderSummary) (total amount : Q)
  : option Q :=
  match levels with
  | [] => None
  | lvl :: rest =>
      let total' := (total + size lvl)%Q in
      if Qle_bool amount total' then Some (price lvl)
      else walk_levels rest total' amount
  end.

(** Modelled from the spec: [OrderBuilder.calculate_buy_market_price] and
    [OrderBuilder.calculate_sell_market_price] of
    [utilities/order_builder/builder.py], which is not among the sources.
    Walk the price levels in favorable-to-the-taker order, accumulating
    level size until the cumulative size meets or exceeds the requested
    amount; the result is the price of the last level needed; if the
    accumulated size never reaches the amount, fail. The order type does
    not affect the computation. *)
Definition calculate_buy_market_price (positions : list OrderSummary)
  (amount_to_match : Q) (order_type : OrderType) : Res Q :=
  match walk_levels (merge_sort ascending positions) 0 amount_to_match with
  | Some p => Ok p
  | None => Raise LiquidityError
  end.

Definition calculate_sell_market_price (positions : list OrderSummary)
  (amount_to_match : Q) (order_type : OrderType) : Res Q :=
  match walk_levels (merge_sort descending positions) 0 amount_to_match with
  | Some p => Ok p
  | None => Raise LiquidityError
  end.

(** ** Market metadata: read-through caches *)

Section Operations.

Context {SignedOrder : Type}.
Context {EX : Exchange SignedOrder} {BU : Builder SignedOrder}.

Definition get_tick_size (token_id : string) : M Q :=
  fun c => match tick_sizes c !! token_id with
           | Some t => (Ok t, c)
           | None =>
               (t <- call (tick_size_endpoint token_id) ;;
                set_tick_size token_id t ;;;
                ret t) c
           end.

Definition get_neg_risk (token_id : string) : M bool :=
  fun c => match neg_risk c !! token_id with
           | Some b => (Ok b, c)
           | None =>
               (b <- call (neg_risk_endpoint token_id) ;;
                set_neg_risk token_id b ;;;
                ret b) c
           end.

(** [fee_rate = response.json().get("base_fee") or 0] *)
Definition get_fee_rate_bps (token_id : string) : M Z :=
  fun c => match fee_rates c !! token_id with
           | Some f => (Ok f, c)
           | None =>
               (base_fee <- call (fee_rate_endpoint token_id) ;;
                let fee_rate := default 0%Z base_fee in
                set_fee_rate token_id fee_rate ;;;
                ret fee_rate) c
           end.

Definition __resolve_tick_size (token_id : string) (tick_size : option Q)
  : M Q :=
  min_tick_size <- get_tick_size token_id ;;
  match tick_size with
  | Some t =>
      if is_tick_size_smaller t min_tick_size
      then raise InvalidTickSizeError
      else ret t
  | None => ret min_tick_size
  end.

Definition __resolve_fee_rate (token_id : string) (user_fee_rate : option Z)
  : M Z :=
  market_fee_rate_bps <- get_fee_rate_bps token_id ;;
  if (0 <? market_fee_rate_bps)%Z
     && match user_fee_rate with
        | Some u => (0 <? u)%Z && negb (u =? market_fee_rate_bps)%Z
        | None => false
        end
  then raise InvalidFeeRateError
  else ret market_fee_rate_bps.

Definition get_order_book (token_id : string)
  : M (option OrderBookSummary) :=
  call (order_book_endpoint token_id).

(** ** Market price discovery *)

Definition calculate_market_price (token_id side : string) (amount : Q)
  (order_type : OrderType) : M Q :=
  book <- get_order_book token_id ;;
  match book with
  | None => raise MissingOrderbookError
  | Some book =>
      if String.eqb side "BUY" then
        match asks book with
        | None => raise LiquidityError
        | Some asks =>
            lift (calculate_buy_market_price asks amount order_type)
        end
      else if String.eqb side "SELL" then
        match bids book with
        | None => raise LiquidityError
        | Some bids =>
            lift (calculate_sell_market_price bids amount order_type)
        end
      else raise ValueError
  end.

(** ** Order construction *)

(** [options.tick_size if options else None] *)
Definition requested_tick_size
  (options : option PartialCreateOrderOptions) : option Q :=
  match options with
  | Some o => opt_tick_size o
  | None => None
  end.

(** [options.neg_risk if options and options.neg_risk is not None
    else self.get_neg_risk(token_id)] *)
Definition resolve_neg_risk (token_id : string)
  (options : option PartialCreateOrderOptions) : M bool :=
  match options with
  | Some o =>
      match opt_neg_risk o with
      | Some b => ret b
      | None => get_neg_risk token_id
      end
  | None => get_neg_risk token_id
  end.

Definition create_order (order_args : OrderArgs)
  (options : option PartialCreateOrderOptions) : M SignedOrder :=
  enter ResolveTickSize ;;;
  tick_size <- __resolve_tick_size (token_id order_args)
                 (requested_tick_size options) ;;
  enter ValidatePrice ;;;
  if negb (price_valid (order_price order_args) tick_size)
  then raise InvalidPriceError
  else
    enter ResolveNegRisk ;;;
    neg_risk <- resolve_neg_risk (token_id order_args) options ;;
    enter ResolveFeeRate ;;;
    fee <- __resolve_fee_rate (token_id order_args)
             (fee_rate_bps order_args) ;;
    let order_args :=
      {| token_id := token_id order_args;
         order_price := order_price order_args;
         order_size := order_size order_args;
         order_side := order_side order_args;
         fee_rate_bps := Some fee |} in
    enter DelegateSigner ;;;
    call (builder_create_order order_args
            {| tick_size := tick_size; is_neg_risk := neg_risk |}).

(** [order_args.price is None or order_args.price <= 0] *)
Definition needs_market_price (p : option Q) : bool :=
  match p with
  | None => true
  | Some p => Qle_bool p 0
  end.

Definition create_market_order (order_args : MarketOrderArgs)
  (options : option PartialCreateOrderOptions) : M SignedOrder :=
  enter ResolveTickSize ;;;
  tick_size <- __resolve_tick_size (m_token_id order_args)
                 (requested_tick_size options) ;;
  p <- (if needs_market_price (m_price order_args) then
          enter DerivePrice ;;;
          calculate_market_price (m_token_id order_args)
            (m_side order_args) (m_amount order_args)
            (m_order_type order_args)
        else ret (default 0%Q (m_price order_args))) ;;
  enter ValidatePrice ;;;
  if negb (price_valid p tick_size)
  then raise InvalidPriceError
  else
    enter ResolveNegRisk ;;;
    neg_risk <- resolve_neg_risk (m_token_id order_args) options ;;
    enter ResolveFeeRate ;;;
    fee <- __resolve_fee_rate (m_token_id order_args)
             (m_fee_rate_bps order_args) ;;
    let order_args :=
      {| m_token_id := m_token_id order_args;
         m_amount := m_amount order_args;
         m_side := m_side order_args;
         m_price := Some p;
         m_fee_rate_bps := Some fee;
         m_order_type := m_order_type order_args |} in
    enter DelegateSigner ;;;
    call (builder_create_market_order order_args
            {| tick_size := tick_size; is_neg_risk := neg_risk |}).

(** ** Order submission *)

(** [self.http.post(...)] *)
Definition http_post (result : HttpResult) : M Response :=
  match result with
  | Responded r => ret r
  | NoResponse => raise RequestError
  end.

Definition is_success (r : Response) : bool :=
  (200 <=? status_code r)%Z && (status_code r <=? 299)%Z.

(** [response.raise_for_status()] *)
Definition raise_for_status (r : Response) : M unit :=
  if is_success r then ret tt else raise (HTTPStatusError r).

(** [response.json()] *)
Definition response_json (r : Response) : M JSON :=
  match body r with
  | Some j => ret j
  | None => raise JSONDecodeError
  end.

(** [j[key]] *)
Definition subscript (j : JSON) (key : string) : M JSON :=
  match j with
  | JObject fields =>
      match dict_get fields key with
      | Some v => ret v
      | None => raise KeyError
      end
  | _ => raise TypeError
  end.

(** The items a [for] loop over [j] visits: the elements of an array,
    the keys of a dict, the characters of a string. *)
Definition iterate (j : JSON) : M (list JSON) :=
  match j with
  | JArray items => ret items
  | JObject fields => ret (map (fun kv => JString (fst kv)) fields)
  | JString s =>
      ret (map (fun ch => JString (String ch EmptyString))
             (String.list_ascii_of_string s))
  | _ => raise TypeError
  end.

(** The constructor of [OrderPostResponse] applied to the fields of
    [item]. *)
Definition OrderPostResponse_new (item : JSON) : M OrderPostResponse :=
  match item with
  | JObject fields =>
      match OrderPostResponse_validate fields with
      | Some resp => ret resp
      | None => raise ValidationError
      end
  | _ => raise TypeError
  end.

(** The [except httpx.HTTPStatusError] handler of [post_order] and
    [post_orders]. *)
Definition submission_failed {A} (r : Response) : M (option A) :=
  emit (WarnClientError (status_code r)) ;;;
  error_json <- response_json r ;;
  details <- subscript error_json "error" ;;
  emit (PrintDetails details) ;;;
  ret None.

Definition post_order (order : SignedOrder) (order_type : OrderType)
  : M (option OrderPostResponse) :=
  enter Submit ;;;
  try_except_HTTPStatusError
    (response <- http_post (post_order_endpoint order order_type) ;;
     raise_for_status response ;;;
     j <- response_json response ;;
     resp <- OrderPostResponse_new j ;;
     ret (Some resp))
    submission_failed.

(** The body of [for index, item in enumerate(response.json())]. *)
Fixpoint post_orders_loop (index : nat) (items : list JSON)
  (order_responses : list OrderPostResponse)
  : M (list OrderPostResponse) :=
  match items with
  | [] => ret order_responses
  | item :: rest =>
      resp <- OrderPostResponse_new item ;;
      let order_responses := order_responses ++ [resp] in
      (if String.eqb (error_msg resp) "" then ret tt
       else emit (WarnOrderError index (error_msg resp))) ;;;
      post_orders_loop (S index) rest order_responses
  end.

Definition post_orders (args : list (SignedOrder * OrderType))
  : M (option (list OrderPostResponse)) :=
  enter Submit ;;;
  try_except_HTTPStatusError
    (response <- http_post (post_orders_endpoint args) ;;
     raise_for_status response ;;;
     j <- response_json response ;;
     items <- iterate j ;;
     order_responses <- post_orders_loop 0 items [] ;;
     ret (Some order_responses))
    submission_failed.

Definition create_and_post_order (order_args : OrderArgs)
  (options : option PartialCreateOrderOptions) (order_type : OrderType)
  : M (option OrderPostResponse) :=
  order <- create_order order_args options ;;
  post_order order order_type.

Definition create_and_post_market_order (order_args : MarketOrderArgs)
  (options : option PartialCreateOrderOptions) (order_type : OrderType)
  : M (option OrderPostResponse) :=
  order <- create_market_order order_args options ;;
  post_order order order_type.

End Operations.

End Clob.

(** * Offset pagination of the gamma client *)

Module Gamma.

(** How a fetch-all call ends: it returns, a page request raises, or the
    loop is still running when the fuel of the model is used up. *)
Inductive Outcome (A : Type) : Type :=
| Returned (a : A)
| Raised (e : ExternalExn)
| Running.
Arguments Returned {A} a.
Arguments Raised {A} e.
Arguments Running {A}.

(** The keyword arguments a fetch-all method forwards to the page method:
    the filters, which are part of the endpoint below, and possibly
    [limit]. *)
Record Kwargs : Type := mkKwargs { kw_limit : option Z }.

Section FetchAll.

Context {T : Type}.

(** [GET] of one page with [limit] and [offset], after
    [raise_for_status] and the construction of the items. *)
Variable endpoint : Z -> Z -> Reply (list T).

(** [get_events(limit=500, offset=0, ...)], [get_teams], [get_tags],
    [get_series]: [default_limit] is the default of the keyword. *)
Definition get_page (default_limit : Z) (kwargs : Kwargs) (offset : Z)
  : Reply (list T) :=
  endpoint (default default_limit (kw_limit kwargs)) offset.

(** The [while True] loop of [get_all_events] and its siblings, with the
    constant [page] the source compares and advances with. The second
    component lists the offsets requested, oldest first. *)
Fixpoint get_all_loop (default_limit page : Z) (kwargs : Kwargs)
  (fuel : nat) (offset : Z) (items : list T) (requested : list Z)
  : Outcome (list T) * list Z :=
  match fuel with
  | O => (Running, requested)
  | S fuel' =>
      match get_page default_limit kwargs offset with
      | Fault e => (Raised e, requested ++ [offset])
      | Got part =>
          let items := items ++ part in
          if (Z.of_nat (length part) <? page)%Z
          then (Returned items, requested ++ [offset])
          else get_all_loop default_limit page kwargs fuel'
                 (offset + page)%Z items (requested ++ [offset])
      end
  end.

Definition get_all_events (kwargs : Kwargs) (fuel : nat) :=
  get_all_loop 500 500 kwargs fuel 0%Z [] [].

Definition get_all_teams (kwargs : Kwargs) (fuel : nat) :=
  get_all_loop 500 500 kwargs fuel 0%Z [] [].

Definition get_all_tags (kwargs : Kwargs) (fuel : nat) :=
  get_all_loop 300 300 kwargs fuel 0%Z [] [].

Definition get_all_series (kwargs : Kwargs) (fuel : nat) :=
  get_all_loop 300 300 kwargs fuel 0%Z [] [].

End FetchAll.

End Gamma.

(** * The websocket client *)

Module Websockets.

Inductive Exn : Type :=
| AuthenticationRequiredError
| AttributeError
| ValidationError.

Inductive Res (A : Type) : Type :=
| Ok (a : A)
| Raise (e : Exn).
Arguments Ok {A} a.
Arguments Raise {A} e.

(** The typed events of [types/websockets_types.py]. *)
Inductive EventType : Type :=
(* market channel *)
| OrderBookSummaryEvent | PriceChangeEvent | TickSizeChangeEvent
| LastTradePriceEvent
(* user channel *)
| OrderEvent | TradeEvent
(* live data channel *)
| ActivityTradeEvent | ActivityOrderMatchEvent | CommentEvent
| ReactionEvent | RequestEvent | QuoteEvent | CryptoPriceSubscribeEvent
| CryptoPriceUpdateEvent | LiveDataOrderBookSummaryEvent
| LiveDataPriceChangeEvent | LiveDataLastTradePriceEvent
| LiveDataTickSizeChangeEvent | MarketStatusChangeEvent
| LiveDataOrderEvent | LiveDataTradeEvent.

(** What a stream yields: a typed event built from a dict, or a value as
    [json.loads] returned it. *)
Inductive StreamEvent : Type :=
| Typed (ty : EventType) (message : list (string * JSON))
| Plain (data : JSON).

(** [json.loads], with [None] for [JSONDecodeError], and the pydantic
    constructors of the typed events, which accept or reject a dict. *)
Class Codec : Type := {
  json_loads : string -> option JSON;
  accepts : EventType -> list (string * JSON) -> bool
}.

Record ApiCreds : Type := mkApiCreds {
  key : string;
  secret : string;
  passphrase : string
}.

(** [creds.model_dump()] *)
Definition model_dump (creds : ApiCreds) : JSON :=
  JObject [("key", JString (key creds));
           ("secret", JString (secret creds));
           ("passphrase", JString (passphrase creds))].

(** [d[key] = v] on a copy of the dict. *)
Fixpoint dict_set (fields : list (string * JSON)) (key : string) (v : JSON)
  : list (string * JSON) :=
  match fields with
  | [] => [(key, v)]
  | (k, x) :: rest =>
      if String.eqb k key then (k, v) :: rest
      else (k, x) :: dict_set rest key v
  end.

Definition json_eqb_string (j : option JSON) (s : string) : bool :=
  match j with
  | Some (JString s') => String.eqb s' s
  | _ => false
  end.

(** [sub.get("topic") == "clob_user"] *)
Definition is_clob_user (sub : list (string * JSON)) : bool :=
  json_eqb_string (dict_get sub "topic") "clob_user".

(** [any(sub.get("topic") == "clob_user" for sub in subscriptions)] *)
Definition needs_auth (subscriptions : list (list (string * JSON))) : bool :=
  existsb is_clob_user subscriptions.

(** The loop that builds [subscriptions_with_creds] / [subs_with_creds]. *)
Definition inject_creds (subscriptions : list (list (string * JSON)))
  (creds : ApiCreds) : list (list (string * JSON)) :=
  map (fun sub =>
         if is_clob_user sub
         then dict_set sub "clob_auth" (model_dump creds)
         else sub)
      subscriptions.

(** What the client does on the wire and towards its caller. *)
Inductive Action : Type :=
| Connect (url : string)
| Send (payload : JSON)
| Process (text : string)      (* the callback of the sync api *)
| Yield (event : StreamEvent). (* the async generators *)

Definition url_market : string :=
  "wss://ws-subscriptions-clob.polymarket.com/ws/market".
Definition url_live_data : string := "wss://ws-live-data.polymarket.com".

Definition subscribe_payload (subscriptions : list (list (string * JSON)))
  : JSON :=
  JObject [("action", JString "subscribe");
           ("subscriptions", JArray (map JObject subscriptions))].

(** ** Sync api: [live_data_socket] *)

(** The events that lomond's [persist(websocket)] delivers; the client
    looks at the names ["ready"] and ["text"] only. *)
Inductive LomondEvent : Type :=
| Connecting
| ConnectFail
| Connected
| Ready
| Text (text : string)
| Poll
| Disconnected.

(** What leaves [live_data_socket]: an exception of the client's own, or
    the one that the callback [process_event] raised, which the loop does
    not catch. *)
Inductive SocketExn (E : Type) : Type :=
| Own (e : Exn)
| FromCallback (e : E).
Arguments Own {E} e.
Arguments FromCallback {E} e.

(** The body of [for event in persist(websocket)]. The list is what the
    socket delivers after the connection attempt. [process_event] is the
    callback on the text of an event: it returns, or raises [e]. *)
Fixpoint live_data_events {E : Type} (process_event : string -> option E)
  (auth : bool) (subscriptions : list (list (string * JSON)))
  (creds : option ApiCreds) (events : list LomondEvent)
  : list Action * option (SocketExn E) :=
  match events with
  | [] => ([], None)
  | Ready :: rest =>
      if auth then
        match creds with
        | None => ([], Some (Own AuthenticationRequiredError))
        | Some cr =>
            let subscriptions := inject_creds subscriptions cr in
            let '(acts, r) :=
              live_data_events process_event auth subscriptions creds rest in
            (Send (subscribe_payload subscriptions) :: acts, r)
        end
      else
        let '(acts, r) :=
          live_data_events process_event auth subscriptions creds rest in
        (Send (subscribe_payload subscriptions) :: acts, r)
  | Text t :: rest =>
      match process_event t with
      | Some e => ([Process t], Some (FromCallback e))
      | None =>
          let '(acts, r) :=
            live_data_events process_event auth subscriptions creds rest in
          (Process t :: acts, r)
      end
  | _ :: rest => live_data_events process_event auth subscriptions creds rest
  end.

(** [live_data_socket]: iterating [persist(websocket)] opens the
    connection, then the events are handled one by one. *)
Definition live_data_socket {E : Type}
  (subscriptions : list (list (string * JSON)))
  (process_event : string -> option E) (creds : option ApiCreds)
  (events : list LomondEvent) : list Action * option (SocketExn E) :=
  let auth := needs_auth subscriptions in
  let '(acts, r) :=
    live_data_events process_event auth subscriptions creds events in
  (Connect url_live_data :: acts, r).

(** ** Async api *)

Section Streams.

Context {CO : Codec}.

Definition construct (ty : EventType) (message : list (string * JSON))
  : Res StreamEvent :=
  if accepts ty message then Ok (Typed ty message)
  else Raise ValidationError.

(** The [case] arms of the three [match] statements: the event type
    selected by the value of the discriminant field, if any. *)
Definition select (arms : list (string * EventType))
  (discriminant : option JSON) : option EventType :=
  match discriminant with
  | Some (JString s) =>
      snd <$> List.find (fun arm => String.eqb (fst arm) s) arms
  | _ => None
  end.

(** [message.get(field)] needs a dict; a discriminant that matches no
    arm returns the message itself. *)
Definition dispatch (field : string) (arms : list (string * EventType))
  (message : JSON) : Res StreamEvent :=
  match message with
  | JObject fields =>
      match select arms (dict_get fields field) with
      | Some ty => construct ty fields
      | None => Ok (Plain message)
      end
  | _ => Raise AttributeError
  end.

Definition parse_market_event : JSON -> Res StreamEvent :=
  dispatch "event_type"
    [("book", OrderBookSummaryEvent);
     ("price_change", PriceChangeEvent);
     ("tick_size_change", TickSizeChangeEvent);
     ("last_trade_price", LastTradePriceEvent)].

Definition parse_user_event : JSON -> Res StreamEvent :=
  dispatch "event_type" [("order", OrderEvent); ("trade", TradeEvent)].

Definition parse_live_data_event : JSON -> Res StreamEvent :=
  dispatch "type"
    [("trades", ActivityTradeEvent);
     ("orders_matched", ActivityOrderMatchEvent);
     ("comment_created", CommentEvent);
     ("comment_removed", CommentEvent);
     ("reaction_created", ReactionEvent);
     ("reaction_removed", ReactionEvent);
     ("request_created", RequestEvent);
     ("request_edited", RequestEvent);
     ("request_canceled", RequestEvent);
     ("request_expired", RequestEvent);
     ("quote_created", QuoteEvent);
     ("quote_edited", QuoteEvent);
     ("quote_canceled", QuoteEvent);
     ("quote_expired", QuoteEvent);
     ("subscribe", CryptoPriceSubscribeEvent);
     ("update", CryptoPriceUpdateEvent);
     ("agg_orderbook", LiveDataOrderBookSummaryEvent);
     ("price_change", LiveDataPriceChangeEvent);
     ("last_trade_price", LiveDataLastTradePriceEvent);
     ("tick_size_change", LiveDataTickSizeChangeEvent);
     ("market_created", MarketStatusChangeEvent);
     ("market_resolved", MarketStatusChangeEvent);
     ("order", LiveDataOrderEvent);
     ("trade", LiveDataTradeEvent)].

(** [parser(item) if parse else item] *)
Definition parse_or_not (parser : JSON -> Res StreamEvent) (parse : bool)
  (item : JSON) : Res StreamEvent :=
  if parse then parser item else Ok (Plain item).

(** [for item in data: yield ...]; an exception ends the generator after
    the events already yielded. *)
Fixpoint yield_items (parse : bool) (data : list JSON)
  : list Action * option Exn :=
  match data with
  | [] => ([], None)
  | item :: rest =>
      match parse_or_not parse_market_event parse item with
      | Raise e => ([], Some e)
      | Ok ev =>
          let '(acts, r) := yield_items parse rest in
          (Yield ev :: acts, r)
      end
  end.

Definition yield_one (parser : JSON -> Res StreamEvent) (parse : bool)
  (data : JSON) : list Action * option Exn :=
  match parse_or_not parser parse data with
  | Raise e => ([], Some e)
  | Ok ev => ([Yield ev], None)
  end.

Definition raw (message : string) : StreamEvent :=
  Plain (JObject [("raw", JString message)]).

(** The body of [async for message in ws] in [amarket_stream]. *)
Definition market_frame (parse : bool) (message : string)
  : list Action * option Exn :=
  match json_loads message with
  | None => ([Yield (raw message)], None)
  | Some (JArray data) => yield_items parse data
  | Some data => yield_one parse_market_event parse data
  end.

(** The same in [alive_data_stream], which has no case for arrays. *)
Definition single_frame (parser : JSON -> Res StreamEvent) (parse : bool)
  (message : string) : list Action * option Exn :=
  match json_loads message with
  | None => ([Yield (raw message)], None)
  | Some data => yield_one parser parse data
  end.

Fixpoint frames (frame : string -> list Action * option Exn)
  (messages : list string) : list Action * option Exn :=
  match messages with
  | [] => ([], None)
  | message :: rest =>
      match frame message with
      | (acts, Some e) => (acts, Some e)
      | (acts, None) =>
          let '(acts', r) := frames frame rest in
          (acts ++ acts', r)
      end
  end.

(** [async for ws in websockets.connect(url)]: one entry of
    [connections] per connection, holding the frames received before
    [ConnectionClosed]; the handshake is sent on each. *)
Fixpoint stream (url : string) (handshake : JSON)
  (frame : string -> list Action * option Exn)
  (connections : list (list string)) : list Action * option Exn :=
  match connections with
  | [] => ([], None)
  | messages :: rest =>
      match frames frame messages with
      | (acts, Some e) => (Connect url :: Send handshake :: acts, Some e)
      | (acts, None) =>
          let '(acts', r) := stream url handshake frame rest in
          (Connect url :: Send handshake :: acts ++ acts', r)
      end
  end.

Definition amarket_stream (token_ids : list string) (parse : bool)
  (connections : list (list string)) : list Action * option Exn :=
  stream url_market
    (JObject [("assets_ids", JArray (map JString token_ids))])
    (market_frame parse) connections.

Definition alive_data_stream (subscriptions : list (list (string * JSON)))
  (creds : option ApiCreds) (parse : bool)
  (connections : list (list string)) : list Action * option Exn :=
  let auth := needs_auth subscriptions in
  match auth, creds with
  | true, None => ([], Some AuthenticationRequiredError)
  | _, _ =>
      let subscriptions :=
        match auth, creds with
        | true, Some cr => inject_creds subscriptions cr
        | _, _ => subscriptions
        end in
      stream url_live_data (subscribe_payload subscriptions)
        (single_frame parse_live_data_event parse) connections
  end.

End Streams.

End Websockets.

(** * Further operations of the order client *)

(** ** Batches of orders *)

Module ClobBatch.
Import Clob.

Section Batch.

Context {SignedOrder : Type}.
Context {EX : Exchange SignedOrder} {BU : Builder SignedOrder}.

(** The list comprehension of [create_and_post_orders] over
    [zip(args, order_types, strict=True)]: an order is created as each
    pair comes out of the zip, and the zip raises [ValueError] when one
    list ends before the other. *)
Fixpoint create_zipped (args : list OrderArgs) (order_types : list OrderType)
  : M (list (SignedOrder * OrderType)) :=
  match args, order_types with
  | [], [] => ret []
  | order_args :: args', order_type :: order_types' =>
      order <- create_order order_args None ;;
      rest <- create_zipped args' order_types' ;;
      ret ((order, order_type) :: rest)
  | _, _ => raise ValueError
  end.

Definition create_and_post_orders (args : list OrderArgs)
  (order_types : list OrderType) : M (option (list OrderPostResponse)) :=
  batch <- create_zipped args order_types ;;
  post_orders batch.

(** [[await self.acreate_order(order_args) for order_args in args]] *)
Fixpoint create_each (args : list OrderArgs) : M (list SignedOrder) :=
  match args with
  | [] => ret []
  | order_args :: args' =>
      order <- create_order order_args None ;;
      rest <- create_each args' ;;
      ret (order :: rest)
  end.

(** [zip(orders, order_types, strict=True)] in a list comprehension. *)
Fixpoint zip_strict {A B : Type} (l1 : list A) (l2 : list B)
  : M (list (A * B)) :=
  match l1, l2 with
  | [], [] => ret []
  | a :: l1', b :: l2' =>
      rest <- zip_strict l1' l2' ;;
      ret ((a, b) :: rest)
  | _, _ => raise ValueError
  end.

Definition acreate_and_post_orders (args : list OrderArgs)
  (order_types : list OrderType) : M (option (list OrderPostResponse)) :=
  orders <- create_each args ;;
  batch <- zip_strict orders order_types ;;
  post_orders batch.

End Batch.

End ClobBatch.

(** ** Credentials and cursor pagination *)

Module ClobReads.

(** *** API credentials *)

Inductive Request : Type :=
| PostCreateApiKey
| GetDeriveApiKey.

(** What the exchange answers to [POST CREATE_API_KEY] and to
    [GET DERIVE_API_KEY] for a nonce, and the pydantic constructor of
    [ApiCreds]. The level 1 headers are made by the signer before each
    request; that step is taken to succeed. *)
Class KeyService : Type := {
  create_api_key_endpoint : option Z -> Clob.HttpResult;
  derive_api_key_endpoint : option Z -> Clob.HttpResult;
  ApiCreds_validate : list (string * JSON) -> option Websockets.ApiCreds
}.

Section Credentials.

Context {KS : KeyService}.

(** [response.raise_for_status()] and the constructor of [ApiCreds] on
    [response.json()]. *)
Definition read_creds (result : Clob.HttpResult)
  : Clob.Res Websockets.ApiCreds :=
  match result with
  | Clob.NoResponse => Clob.Raise (Clob.External RequestError)
  | Clob.Responded r =>
      if Clob.is_success r then
        match body r with
        | None => Clob.Raise (Clob.External JSONDecodeError)
        | Some (JObject fields) =>
            match ApiCreds_validate fields with
            | Some creds => Clob.Ok creds
            | None => Clob.Raise (Clob.External ValidationError)
            end
        | Some _ => Clob.Raise (Clob.External TypeError)
        end
      else Clob.Raise (Clob.External (HTTPStatusError r))
  end.

(** The requests made, oldest first, and the result. *)
Definition create_api_creds (nonce : option Z)
  : list Request * Clob.Res Websockets.ApiCreds :=
  ([PostCreateApiKey], read_creds (create_api_key_endpoint nonce)).

Definition derive_api_key (nonce : option Z)
  : list Request * Clob.Res Websockets.ApiCreds :=
  ([GetDeriveApiKey], read_creds (derive_api_key_endpoint nonce)).

(** [try: return create except HTTPStatusError: return derive] *)
Definition create_or_derive_api_creds (nonce : option Z)
  : list Request * Clob.Res Websockets.ApiCreds :=
  match create_api_creds nonce with
  | (requests, Clob.Raise (Clob.External (HTTPStatusError _))) =>
      let '(requests', r) := derive_api_key nonce in
      (requests ++ requests', r)
  | other => other
  end.

(** [self.creds = creds if creds else self.create_or_derive_api_creds()]
    in [__init__]. *)
Definition init_creds (creds : option Websockets.ApiCreds)
  : list Request * Clob.Res Websockets.ApiCreds :=
  match creds with
  | Some creds => ([], Clob.Ok creds)
  | None => create_or_derive_api_creds None
  end.

End Credentials.

(** *** Cursor pagination *)

(** A page of a cursor-paginated endpoint: [response.json()["data"]]
    with the items constructed, and [response.json()["next_cursor"]]. *)
Record Page (T : Type) : Type := mkPage {
  data : list T;
  next_cursor : string
}.
Arguments mkPage {T} data next_cursor.
Arguments data {T} p.
Arguments next_cursor {T} p.

(** How the recursion of [get_all_markets] ends: it returns, a page
    request raises, or the call stack is used up. *)
Inductive Recursion (A : Type) : Type :=
| Done (a : A)
| Failed (e : ExternalExn)
| RecursionError.
Arguments Done {A} a.
Arguments Failed {A} e.
Arguments RecursionError {A}.

Section Cursor.

Context {T : Type}.

(** [END_CURSOR] of [utilities/constants.py]: the sentinel of the loops.
    The recursion of [get_all_markets] spells its own sentinel out. *)
Variable END_CURSOR : string.

(** The page the exchange gives for a cursor, after [raise_for_status]
    and the construction of the items. *)
Variable endpoint : string -> Reply (Page T).

(** [get_all_markets] and [aget_all_markets]: the recursion, with the
    cursors requested, oldest first. Every page adds an activation of the
    method to the call stack. [depth] is the number of nested activations
    that the recursion limit of the interpreter leaves to the call; the
    activation that would exceed it raises [RecursionError], which
    nothing catches. The frames that [get_markets] needs inside an
    activation are not counted. *)
Fixpoint get_all_markets (depth : nat) (cursor : string)
  : Recursion (list T) * list string :=
  match depth with
  | O => (RecursionError, [])
  | S depth' =>
      if String.eqb cursor "LTE=" then (Done [], [])
      else
        match endpoint cursor with
        | Fault e => (Failed e, [cursor])
        | Got paginated_response =>
            let current_markets := data paginated_response in
            let '(r, requested) :=
              get_all_markets depth' (next_cursor paginated_response) in
            (match r with
             | Done next_page_markets =>
                 Done (current_markets ++ next_page_markets)
             | other => other
             end, cursor :: requested)
        end
  end.

(** The loop [while next_cursor != END_CURSOR] of [get_orders],
    [get_trades] and [get_reward_markets]. *)
Fixpoint drain (fuel : nat) (cursor : string) (results : list T)
  (requested : list string) : Gamma.Outcome (list T) * list string :=
  match fuel with
  | O => (Gamma.Running, requested)
  | S fuel' =>
      if String.eqb cursor END_CURSOR then (Gamma.Returned results, requested)
      else
        match endpoint cursor with
        | Fault e => (Gamma.Raised e, requested ++ [cursor])
        | Got page =>
            drain fuel' (next_cursor page) (results ++ data page)
              (requested ++ [cursor])
        end
  end.

(** [next_cursor if next_cursor is not None else "MA=="], then the
    loop. *)
Definition get_orders (cursor : option string) (fuel : nat)
  : Gamma.Outcome (list T) * list string :=
  drain fuel (default "MA==" cursor) [] [].

Definition get_trades (cursor : option string) (fuel : nat)
  : Gamma.Outcome (list T) * list string :=
  drain fuel (default "MA==" cursor) [] [].

Definition get_reward_markets (fuel : nat)
  : Gamma.Outcome (list T) * list string :=
  drain fuel "MA==" [] [].

(** The pages that follow [cursor] up to the sentinel. *)
Fixpoint linked (cursor : string) (chain : list (string * Page T)) : Prop :=
  match chain with
  | [] => cursor = END_CURSOR
  | (c, page) :: rest =>
      c = cursor /\ cursor <> END_CURSOR /\ endpoint cursor = Got page
      /\ linked (next_cursor page) rest
  end.

End Cursor.

End ClobReads.

(** ** Price history requests *)

Module ClobHistory.

(** A [datetime] is the instant it denotes, in microseconds since the
    epoch: the times are aware datetimes of one time zone with a fixed
    offset, as the [datetime(2020, 1, 1, tzinfo=UTC)] of [get_all_history],
    far from the ends of the range of [datetime].
    [timedelta(days=15, seconds=1)] is 1296001 seconds. *)
Definition microseconds_per_second : Z := 1000000.
Definition fifteen_days_and_a_second : Z := 1296001 * microseconds_per_second.

(** The query parameters of [GET /prices-history]. *)
Record Params : Type := mkParams {
  market : string;
  interval : option string;
  fidelity : Z;
  startTs : option Z;
  endTs : option Z
}.

Section History.

Context {PriceHistory : Type}.

(** [int(t.timestamp())]: the whole seconds of a time. *)
Variable timestamp_seconds : Z -> Z.

(** The answer to [GET /prices-history], after [raise_for_status] and the
    construction of the [PriceHistory]. *)
Variable endpoint : Params -> Reply PriceHistory.

Definition request (params : Params)
  : list Params * Clob.Res PriceHistory :=
  ([params],
   match endpoint params with
   | Got history => Clob.Ok history
   | Fault e => Clob.Raise (Clob.External e)
   end).

(** The [min_fidelities] dict of [get_recent_history]. *)
Definition min_fidelities : list (string * Z) :=
  [("1h", 1); ("6h", 1); ("1d", 1); ("1w", 5); ("1m", 10); ("max", 2)]%Z.

Fixpoint lookup_fidelity (table : list (string * Z)) (key : string)
  : option Z :=
  match table with
  | [] => None
  | (k, v) :: rest => if String.eqb k key then Some v else lookup_fidelity rest key
  end.

(** The requests sent and the result. [min_fidelities[interval]] raises
    [KeyError] for an interval that is not in the dict. *)
Definition get_recent_history (token_id interval : string) (fidelity : Z)
  : list Params * Clob.Res PriceHistory :=
  match lookup_fidelity min_fidelities interval with
  | None => ([], Clob.Raise (Clob.External KeyError))
  | Some minimum =>
      if (fidelity <? minimum)%Z then ([], Clob.Raise Clob.ValueError)
      else
        request {| market := token_id; interval := Some interval;
                   fidelity := fidelity; startTs := None; endTs := None |}
  end.

Definition get_history (token_id : string) (start_time end_time : option Z)
  (fidelity : Z) : list Params * Clob.Res PriceHistory :=
  match start_time, end_time with
  | None, None => ([], Clob.Raise Clob.ValueError)
  | _, _ =>
      if match start_time, end_time with
         | Some s, Some e => (s + fifteen_days_and_a_second <? e)%Z
         | _, _ => false
         end
      then ([], Clob.Raise Clob.ValueError)
      else
        request {| market := token_id; interval := None;
                   fidelity := fidelity;
                   startTs := timestamp_seconds <$> start_time;
                   endTs := timestamp_seconds <$> end_time |}
  end.

(** [datetime(2020, 1, 1, tzinfo=UTC)] *)
Definition start_of_2020 : Z := 1577836800 * microseconds_per_second.

Definition get_all_history (token_id : string)
  : list Params * Clob.Res PriceHistory :=
  get_history token_id (Some start_of_2020) None 2.

End History.

End ClobHistory.

(** * The default processors of the sync websocket api *)

Module WebsocketsSync.
Import Websockets.

(** What a default processor prints. *)
Inductive Output : Type :=
| PrintEvent (event : StreamEvent)
| PrintText (text : string)
| PrintErrors
| PrintMessage (message : JSON).

(** The exceptions that leave a default processor. *)
Inductive Uncaught : Type :=
| KeyError
| TypeError
| AttributeError.

Section Processors.

Context {CO : Codec}.

(** [for item in message] in [_process_market_event]: every item goes to
    the constructor of [OrderBookSummaryEvent]; in the handler of its
    [ValidationError], [item.text] fails on a dict. *)
Fixpoint process_items (items : list JSON) : list Output * option Uncaught :=
  match items with
  | [] => ([], None)
  | JObject fields :: rest =>
      if accepts OrderBookSummaryEvent fields then
        let '(out, r) := process_items rest in
        (PrintEvent (Typed OrderBookSummaryEvent fields) :: out, r)
      else ([], Some AttributeError)
  | _ :: rest => ([], Some TypeError)
  end.

(** The [match message[field]] of the default processors: a typed print,
    or [print(message)] where the match has a wildcard case; a
    [ValidationError] goes to the outer handler [on_invalid]. *)
Definition process_dict (field : string) (arms : list (string * EventType))
  (wildcard : bool) (on_invalid : list Output)
  (fields : list (string * JSON)) : list Output * option Uncaught :=
  match dict_get fields field with
  | None => ([], Some KeyError)
  | Some discriminant =>
      match select arms (Some discriminant) with
      | Some ty =>
          if accepts ty fields then ([PrintEvent (Typed ty fields)], None)
          else (on_invalid, None)
      | None =>
          (if wildcard then [PrintMessage (JObject fields)] else [], None)
      end
  end.

(** [_process_market_event] on the text of an event. *)
Definition _process_market_event (text : string)
  : list Output * option Uncaught :=
  match json_loads text with
  | None => ([PrintText text], None)
  | Some (JArray items) => process_items items
  | Some (JObject fields) =>
      process_dict "event_type"
        [("book", OrderBookSummaryEvent);
         ("price_change", PriceChangeEvent);
         ("tick_size_change", TickSizeChangeEvent);
         ("last_trade_price", LastTradePriceEvent)]
        true [PrintErrors; PrintMessage (JObject fields)] fields
  | Some _ => ([], Some TypeError)
  end.

(** [_process_user_event]: its match has no wildcard case. Subscripting a
    list with a string is a [TypeError] too. *)
Definition _process_user_event (text : string)
  : list Output * option Uncaught :=
  match json_loads text with
  | None => ([PrintText text], None)
  | Some (JObject fields) =>
      process_dict "event_type"
        [("order", OrderEvent); ("trade", TradeEvent)]
        false [PrintText text; PrintErrors] fields
  | Some _ => ([], Some TypeError)
  end.



End Processors.

End WebsocketsSync.

(** * Fixtures: concrete collaborators for examples *)

Module Fixtures.
Import Clob.

(** A market with tick size 0.01, fee rate 50 bps and two ask levels. The
    exchange answers [POST /order] by the number of the order: a 502 whose
    body is not JSON, a 400 with an error detail, no response, or an
    acknowledgment; and [POST /orders] by the size of the batch: three
    outcomes of which the second is rejected, a 502 whose body is not
    JSON, or no response. *)
#[local] Instance exchange : Exchange nat := {|
  tick_size_endpoint := fun _ => Got (1 # 100)%Q;
  neg_risk_endpoint := fun _ => Got false;
  fee_rate_endpoint := fun _ => Got (Some 50%Z);
  order_book_endpoint := fun _ =>
    Got (Some {| bids := Some [];
                 asks := Some [ {| price := (40 # 100)%Q; size := 10%Q |};
                                {| price := (41 # 100)%Q; size := 20%Q |} ] |});
  post_order_endpoint := fun order _ =>
    match order with
    | 1%nat => Responded {| status_code := 502; body := None |}
    | 2%nat =>
        Responded {| status_code := 400;
                     body := Some (JObject [("error", JString "bad price")]) |}
    | 3%nat => NoResponse
    | _ =>
        Responded {| status_code := 200;
                     body := Some (JObject [("errorMsg", JString "")]) |}
    end;
  post_orders_endpoint := fun args =>
    match length args with
    | 3%nat =>
        Responded
          {| status_code := 200;
             body := Some (JArray
                             [JObject [("errorMsg", JString "")];
                              JObject [("errorMsg", JString "bad price")];
                              JObject [("errorMsg", JString "")]]) |}
    | 1%nat => Responded {| status_code := 502; body := None |}
    | _ => NoResponse
    end
|}.

(** A signer that numbers the orders it signs, and a constructor that
    reads [errorMsg]. *)
#[local] Instance builder : Builder nat := {|
  builder_create_order := fun _ _ => Got 1%nat;
  builder_create_market_order := fun _ _ => Got 2%nat;
  OrderPostResponse_validate := fun fields =>
    match dict_get fields "errorMsg" with
    | Some (JString msg) =>
        Some {| error_msg := msg; order_id := "";
                success := String.eqb msg "" |}
    | _ => None
    end
|}.

(** An events endpoint over 1120 events (numbered from 0) that honors
    [limit] and [offset]. *)
Definition events_endpoint (limit offset : Z) : Reply (list nat) :=
  Got (take (Z.to_nat limit) (drop (Z.to_nat offset) (seq 0 1120))).

(** A codec for frames: ["[book]"] is an array with one book message,
    ["pong"] is not JSON; every dict is accepted by every event type. *)
Definition book_message : list (string * JSON) :=
  [("event_type", JString "book"); ("market", JString "0xabc")].

#[local] Instance codec : Websockets.Codec := {|
  Websockets.json_loads := fun message =>
    if String.eqb message "[book]" then Some (JArray [JObject book_message])
    else if String.eqb message "[1]" then Some (JArray [JNumber 1])
    else None;
  Websockets.accepts := fun _ _ => true
|}.

End Fixtures.

(** ** Further collaborators *)

(** The exchange [ex] with another order book, or with another neg-risk
    flag service. *)
Definition with_order_book {SignedOrder : Type}
  (ex : Clob.Exchange SignedOrder)
  (book : string -> Reply (option Clob.OrderBookSummary))
  : Clob.Exchange SignedOrder := {|
  Clob.tick_size_endpoint := Clob.tick_size_endpoint;
  Clob.neg_risk_endpoint := Clob.neg_risk_endpoint;
  Clob.fee_rate_endpoint := Clob.fee_rate_endpoint;
  Clob.order_book_endpoint := book;
  Clob.post_order_endpoint := Clob.post_order_endpoint;
  Clob.post_orders_endpoint := Clob.post_orders_endpoint
|}.

Definition with_neg_risk {SignedOrder : Type}
  (ex : Clob.Exchange SignedOrder) (flag : string -> Reply bool)
  : Clob.Exchange SignedOrder := {|
  Clob.tick_size_endpoint := Clob.tick_size_endpoint;
  Clob.neg_risk_endpoint := flag;
  Clob.fee_rate_endpoint := Clob.fee_rate_endpoint;
  Clob.order_book_endpoint := Clob.order_book_endpoint;
  Clob.post_order_endpoint := Clob.post_order_endpoint;
  Clob.post_orders_endpoint := Clob.post_orders_endpoint
|}.

(** An exchange that reports no base fee. *)
Definition exchange_without_fee : Clob.Exchange nat := {|
  Clob.tick_size_endpoint := fun _ => Got (1 # 100)%Q;
  Clob.neg_risk_endpoint := fun _ => Got false;
  Clob.fee_rate_endpoint := fun _ => Got None;
  Clob.order_book_endpoint := fun _ => Got None;
  Clob.post_order_endpoint := fun _ _ => Clob.NoResponse;
  Clob.post_orders_endpoint := fun _ => Clob.NoResponse
|}.

(** An exchange that answers every batch with an array of one outcome. *)
Definition exchange_with_short_reply : Clob.Exchange nat := {|
  Clob.tick_size_endpoint := fun _ => Got (1 # 100)%Q;
  Clob.neg_risk_endpoint := fun _ => Got false;
  Clob.fee_rate_endpoint := fun _ => Got None;
  Clob.order_book_endpoint := fun _ => Got None;
  Clob.post_order_endpoint := fun _ _ => Clob.NoResponse;
  Clob.post_orders_endpoint := fun _ =>
    Clob.Responded
      {| status_code := 200;
         body := Some (JArray [JObject [("errorMsg", JString "")]]) |}
|}.

(** An exchange that answers a batch with one good outcome and then a
    number. *)
Definition exchange_with_malformed_outcome : Clob.Exchange nat := {|
  Clob.tick_size_endpoint := fun _ => Got (1 # 100)%Q;
  Clob.neg_risk_endpoint := fun _ => Got false;
  Clob.fee_rate_endpoint := fun _ => Got None;
  Clob.order_book_endpoint := fun _ => Got None;
  Clob.post_order_endpoint := fun _ _ => Clob.NoResponse;
  Clob.post_orders_endpoint := fun _ =>
    Clob.Responded
      {| status_code := 200;
         body := Some (JArray [JObject [("errorMsg", JString "bad price")];
                               JNumber 1]) |}
|}.

(** A key service that refuses to create a key and derives one. *)
Definition service_with_existing_key : ClobReads.KeyService := {|
  ClobReads.create_api_key_endpoint := fun _ =>
    Clob.Responded {| status_code := 400; body := None |};
  ClobReads.derive_api_key_endpoint := fun _ =>
    Clob.Responded {| status_code := 200; body := Some (JObject []) |};
  ClobReads.ApiCreds_validate := fun _ =>
    Some (Websockets.mkApiCreds "k" "s" "p")
|}.

(** Two pages of orders, then the sentinel; and an exchange that always
    answers with the same cursor. *)
Definition two_pages (cursor : string) : Reply (ClobReads.Page nat) :=
  if String.eqb cursor "MA==" then Got (ClobReads.mkPage [1; 2] "Mg==")
  else if String.eqb cursor "Mg==" then Got (ClobReads.mkPage [3] "LTE=")
  else Fault KeyError.

Definition same_cursor (cursor : string) : Reply (ClobReads.Page nat) :=
  Got (ClobReads.mkPage [1] "MA==").

(** A codec for which ["{}"] is the empty dict. *)
Definition codec_with_empty_dict : Websockets.Codec := {|
  Websockets.json_loads := fun message =>
    if String.eqb message "{}" then Some (JObject []) else None;
  Websockets.accepts := fun _ _ => true
|}.

(** A codec for which ["1"] is the number one. *)
Definition codec_with_number : Websockets.Codec := {|
  Websockets.json_loads := fun message =>
    if String.eqb message "1" then Some (JNumber 1) else None;
  Websockets.accepts := fun _ _ => true
|}.

(** An endpoint over 700 tags that honors [limit] and [offset], and an
    events endpoint that fails from offset 500 on. *)
Definition tags_endpoint (limit offset : Z) : Reply (list nat) :=
  Got (take (Z.to_nat limit) (drop (Z.to_nat offset) (seq 0 700))).

Definition failing_events_endpoint (limit offset : Z) : Reply (list nat) :=
  if (offset <? 500)%Z then Fixtures.events_endpoint limit offset
  else Fault RequestError.

(** * Properties of the order client *)

Lemma Qltb_lt (a b : Q) : Qltb a b = true <-> (a < b)%Q.
Proof.
  unfold Qltb. rewrite negb_true_iff. split.
  - intros H. apply Qnot_le_lt. intros Hle.
    apply Qle_bool_iff in Hle. congruence.
  - intros H. destruct (Qle_bool b a) eqn:E; [|reflexivity].
    apply Qle_bool_iff in E. exfalso. exact (Qlt_not_le _ _ H E).
Qed.

Lemma Qltb_ge (a b : Q) : Qltb a b = false <-> (b <= a)%Q.
Proof.
  unfold Qltb. rewrite negb_false_iff. apply Qle_bool_iff.
Qed.

Section ClobMetadata.

Import Clob.
Context {SignedOrder : Type}.
Context {EX : Exchange SignedOrder} {BU : Builder SignedOrder}.

(** A cached tick size is returned without asking the exchange, and the
    client is unchanged. *)
Lemma get_tick_size_hit (c : Client) (token : string) (t : Q) :
  tick_sizes c !! token = Some t ->
  get_tick_size token c = (Ok t, c).
Proof. intros H. unfold get_tick_size. by rewrite H. Qed.

(** After a successful [get_tick_size] the value is cached. *)
Lemma get_tick_size_cached (c c' : Client) (token : string) (t : Q) :
  get_tick_size token c = (Ok t, c') ->
  tick_sizes c' !! token = Some t.
Proof.
  unfold get_tick_size. destruct (tick_sizes c !! token) eqn:E.
  - intros [= <- <-]. exact E.
  - unfold bind, call, set_tick_size, ret.
    destruct (tick_size_endpoint token); [|discriminate].
    intros [= <- <-]. simpl. apply lookup_insert_eq.
Qed.

(** C4: with market minimum [minimum] for the token, tick-size
    resolution returns the market minimum when the caller requests none,
    returns the requested tick size when it is not smaller than the
    minimum, and raises [InvalidTickSizeError] when it is smaller. *)
Theorem resolve_tick_size_spec (c c' : Client) (token : string)
  (requested : option Q) (minimum : Q) :
  get_tick_size token c = (Ok minimum, c') ->
  (requested = None ->
     __resolve_tick_size token requested c = (Ok minimum, c'))
  /\ (forall t, requested = Some t -> ~ (t < minimum)%Q ->
        __resolve_tick_size token requested c = (Ok t, c'))
  /\ (forall t, requested = Some t -> (t < minimum)%Q ->
        __resolve_tick_size token requested c
        = (Raise InvalidTickSizeError, c')).
Proof.
  intros Hmin. unfold __resolve_tick_size, bind. rewrite Hmin.
  repeat split.
  - by intros ->.
  - intros t -> Hge. unfold is_tick_size_smaller.
    destruct (Qltb t minimum) eqn:E; [|reflexivity].
    apply Qltb_lt in E. contradiction.
  - intros t -> Hlt. unfold is_tick_size_smaller.
    apply Qltb_lt in Hlt. by rewrite Hlt.
Qed.

(** C3, as the code has it: with market fee rate [market] for the token,
    fee-rate resolution raises [InvalidFeeRateError] exactly when the
    market rate is positive and the caller supplied a positive rate that
    differs from it; in every other case it returns the market rate,
    whatever the caller supplied: a caller rate that is zero, negative or
    equal to the market rate is ignored. *)
Theorem resolve_fee_rate_spec (c c' : Client) (token : string)
  (user : option Z) (market : Z) :
  get_fee_rate_bps token c = (Ok market, c') ->
  let conflict :=
    (0 < market)%Z
    /\ exists u, user = Some u /\ (0 < u)%Z /\ u <> market in
  (conflict ->
     __resolve_fee_rate token user c = (Raise InvalidFeeRateError, c'))
  /\ (~ conflict -> __resolve_fee_rate token user c = (Ok market, c')).
Proof.
  intros Hm conflict. subst conflict.
  unfold __resolve_fee_rate, bind. rewrite Hm. split.
  - intros (Hpos & u & -> & Hu & Hdiff).
    replace (0 <? market)%Z with true by (symmetry; apply Z.ltb_lt; lia).
    replace (0 <? u)%Z with true by (symmetry; apply Z.ltb_lt; lia).
    replace (u =? market)%Z with false by (symmetry; apply Z.eqb_neq; lia).
    reflexivity.
  - intros Hno.
    destruct (0 <? market)%Z eqn:E1; [|reflexivity].
    destruct user as [u|]; [|reflexivity].
    destruct (0 <? u)%Z eqn:E2; [|reflexivity].
    destruct (u =? market)%Z eqn:E3; [reflexivity|].
    exfalso. apply Hno. apply Z.ltb_lt in E1, E2. apply Z.eqb_neq in E3.
    split; [lia|]. exists u. repeat split; [lia | exact E3].
Qed.

End ClobMetadata.

(** The client of the fixtures after its first fee-rate and tick-size
    lookups for token ["T"]. *)
Lemma resolve_tick_size_spec_witness :
  Clob.__resolve_tick_size (EX := Fixtures.exchange) "T" (Some (1 # 1000)%Q)
    Clob.new_client
  = (Clob.Raise Clob.InvalidTickSizeError,
     snd (Clob.get_tick_size (EX := Fixtures.exchange) "T" Clob.new_client)).
Proof.
  refine (proj2 (proj2 (resolve_tick_size_spec (EX := Fixtures.exchange)
            Clob.new_client _ "T" (Some (1 # 1000)%Q) (1 # 100)%Q _))
            (1 # 1000)%Q eq_refl _).
  - reflexivity.
  - reflexivity.
Defined.

Lemma resolve_fee_rate_spec_witness :
  let cached :=
    snd (Clob.get_fee_rate_bps (EX := Fixtures.exchange) "T"
           Clob.new_client) in
  let resolve user :=
    Clob.__resolve_fee_rate (EX := Fixtures.exchange) "T" user
      Clob.new_client in
  resolve (Some 30%Z) = (Clob.Raise Clob.InvalidFeeRateError, cached)
  /\ resolve (Some 0%Z) = (Clob.Ok 50%Z, cached)
  /\ resolve (Some 50%Z) = (Clob.Ok 50%Z, cached)
  /\ resolve (Some (-5)%Z) = (Clob.Ok 50%Z, cached).
Proof.
  split; [|split; [|split]].
  - refine (proj1 (resolve_fee_rate_spec (EX := Fixtures.exchange)
              Clob.new_client _ "T" (Some 30%Z) 50%Z _) _).
    + reflexivity.
    + split; [lia|]. exists 30%Z. repeat split; lia.
  - refine (proj2 (resolve_fee_rate_spec (EX := Fixtures.exchange)
              Clob.new_client _ "T" (Some 0%Z) 50%Z _) _).
    + reflexivity.
    + intros (_ & u & [= <-] & Hu & _). lia.
  - refine (proj2 (resolve_fee_rate_spec (EX := Fixtures.exchange)
              Clob.new_client _ "T" (Some 50%Z) 50%Z _) _).
    + reflexivity.
    + intros (_ & u & [= <-] & _ & Hu). lia.
  - refine (proj2 (resolve_fee_rate_spec (EX := Fixtures.exchange)
              Clob.new_client _ "T" (Some (-5)%Z) 50%Z _) _).
    + reflexivity.
    + intros (_ & u & [= <-] & Hu & _). lia.
Defined.

(** The claim read on rates that are nonzero: resolution raises exactly
    when the market rate and the caller's rate are both nonzero and
    differ. *)
Definition raises_on_nonzero_conflict {SignedOrder : Type}
  {EX : Clob.Exchange SignedOrder} (token : string) (c : Clob.Client)
  : Prop :=
  forall (user : option Z) (market : Z) (c' : Clob.Client),
    Clob.get_fee_rate_bps token c = (Clob.Ok market, c') ->
    (fst (Clob.__resolve_fee_rate token user c)
     = Clob.Raise Clob.InvalidFeeRateError
     <-> market <> 0%Z
         /\ exists u, user = Some u /\ u <> 0%Z /\ u <> market).

(** A negative caller rate is nonzero and differs from the market's 50,
    and yet it is ignored: the test of the code is [> 0]. *)
Lemma resolve_fee_rate_negative_counterexample :
  ~ raises_on_nonzero_conflict (EX := Fixtures.exchange) "T"
      Clob.new_client.
Proof.
  intros H.
  destruct (H (Some (-5)%Z) 50%Z _ eq_refl) as [_ Hraise].
  discriminate Hraise.
  split; [lia|]. exists (-5)%Z. repeat split; lia.
Qed.

(** ** Price validation *)

Lemma is_multiple_spec (p t : Q) :
  Clob.is_multiple p t = true <-> exists k : Z, (p == inject_Z k * t)%Q.
Proof.
  unfold Clob.is_multiple. rewrite Z.eqb_eq.
  assert (Hq : forall k : Z,
             (p == inject_Z k * t)%Q
             <-> (Qnum p * QDen t = k * (Qnum t * QDen p))%Z).
  { intros k. unfold Qeq. simpl. split; intros H; lia. }
  destruct (Z.eq_dec (Qnum t * QDen p)%Z 0%Z) as [Hz|Hnz].
  - rewrite Hz, Z.mod_0_r. split.
    + intros H. exists 0%Z. apply Hq. lia.
    + intros [k Hk]. apply Hq in Hk. rewrite Hz in Hk. lia.
  - rewrite Z.mod_divide by exact Hnz. split.
    + intros [k Hk]. exists k. apply Hq. exact Hk.
    + intros [k Hk]. exists k. apply Hq. exact Hk.
Qed.

Lemma price_valid_spec (p t : Q) :
  Clob.price_valid p t = true
  <-> (exists k : Z, (p == inject_Z k * t)%Q) /\ (t <= p)%Q /\ (p <= 1 - t)%Q.
Proof.
  unfold Clob.price_valid. rewrite !andb_true_iff, is_multiple_spec.
  rewrite !Qle_bool_iff. tauto.
Qed.

(** The examples of the specification for tick size 0.01: 0.005 is below
    the minimum, 0.50 is valid, 0.999 exceeds the maximum 0.99. *)
Example price_valid_examples :
  Clob.price_valid (5 # 1000) (1 # 100) = false
  /\ Clob.price_valid (50 # 100) (1 # 100) = true
  /\ Clob.price_valid (999 # 1000) (1 # 100) = false.
Proof. repeat split; reflexivity. Qed.

Section ClobOrders.

Import Clob.
Context {SignedOrder : Type}.
Context {EX : Exchange SignedOrder} {BU : Builder SignedOrder}.

(** A step of case analysis on the run of a client operation. *)
Ltac run_step :=
  match goal with
  | H : (_, _) = (_, _) |- _ => injection H as ??; subst
  | |- context [match ?x with _ => _ end] => destruct x eqn:?
  | H : context [match ?x with _ => _ end] |- _ => destruct x eqn:?
  end; simpl in *; try congruence.

Lemma bind_ok {A B} (m : M A) (k : A -> M B) (c c' : Client) (a : A) :
  m c = (Ok a, c') -> bind m k c = k a c'.
Proof. intros H. unfold bind. by rewrite H. Qed.

Lemma bind_raise {A B} (m : M A) (k : A -> M B) (c c' : Client) (e : Exn) :
  m c = (Raise e, c') -> bind m k c = (Raise e, c').
Proof. intros H. unfold bind. by rewrite H. Qed.

(** The metadata operations leave the step trace alone. *)
Lemma get_tick_size_steps (token : string) (c c' : Client) (r : Res Q) :
  get_tick_size token c = (r, c') -> steps c' = steps c.
Proof.
  unfold get_tick_size, bind, call, set_tick_size, ret.
  intros H. repeat run_step.
Qed.

Lemma get_neg_risk_steps (token : string) (c c' : Client) (r : Res bool) :
  get_neg_risk token c = (r, c') -> steps c' = steps c.
Proof.
  unfold get_neg_risk, bind, call, set_neg_risk, ret.
  intros H. repeat run_step.
Qed.

Lemma get_fee_rate_bps_steps (token : string) (c c' : Client) (r : Res Z) :
  get_fee_rate_bps token c = (r, c') -> steps c' = steps c.
Proof.
  unfold get_fee_rate_bps, bind, call, set_fee_rate, ret.
  intros H. repeat run_step.
Qed.

Lemma resolve_tick_size_steps (token : string) (requested : option Q)
  (c c' : Client) (r : Res Q) :
  __resolve_tick_size token requested c = (r, c') -> steps c' = steps c.
Proof.
  unfold __resolve_tick_size, bind, raise, ret. intros H.
  destruct (get_tick_size token c) as [r0 c0] eqn:E.
  apply get_tick_size_steps in E. repeat run_step.
Qed.

Lemma resolve_neg_risk_steps (token : string)
  (options : option PartialCreateOrderOptions) (c c' : Client)
  (r : Res bool) :
  resolve_neg_risk token options c = (r, c') -> steps c' = steps c.
Proof.
  unfold resolve_neg_risk, ret. intros H.
  destruct options as [[? [b|]]|];
    first [ by injection H as ??; subst
          | by apply get_neg_risk_steps in H ].
Qed.

Lemma resolve_fee_rate_steps (token : string) (user : option Z)
  (c c' : Client) (r : Res Z) :
  __resolve_fee_rate token user c = (r, c') -> steps c' = steps c.
Proof.
  unfold __resolve_fee_rate, bind, raise, ret. intros H.
  destruct (get_fee_rate_bps token c) as [r0 c0] eqn:E.
  apply get_fee_rate_bps_steps in E. repeat run_step.
Qed.

(** Validation errors are raised by the client only: what the resolution
    of the neg-risk flag raises comes from the exchange. *)
Lemma resolve_neg_risk_external (token : string)
  (options : option PartialCreateOrderOptions) (c c' : Client) (e : Exn) :
  resolve_neg_risk token options c = (Raise e, c') ->
  exists x, e = External x.
Proof.
  unfold resolve_neg_risk, get_neg_risk, bind, call, set_neg_risk, ret.
  intros H. repeat run_step; eauto.
Qed.

Lemma resolve_fee_rate_raises (token : string) (user : option Z)
  (c c' : Client) (e : Exn) :
  __resolve_fee_rate token user c = (Raise e, c') ->
  e = InvalidFeeRateError \/ exists x, e = External x.
Proof.
  unfold __resolve_fee_rate, get_fee_rate_bps, bind, call, set_fee_rate,
    raise, ret.
  intros H. repeat run_step; eauto.
Qed.

(** C1: once the tick size of the token is resolved to [t] (any tick size,
    in particular 0.1, 0.01 and 0.001), [create_order] accepts the price
    [p] of the order if and only if [p] is an exact multiple of [t] and
    [t <= p <= 1 - t]: a valid price passes on to the next step and
    [InvalidPriceError] is not raised; for any other price
    [InvalidPriceError] is raised and the signer is not invoked. *)
Theorem create_order_price_check (c c1 : Client) (order_args : OrderArgs)
  (options : option PartialCreateOrderOptions) (t : Q) :
  __resolve_tick_size (token_id order_args) (requested_tick_size options)
    (snd (enter ResolveTickSize c)) = (Ok t, c1) ->
  let p := order_price order_args in
  let valid :=
    (exists k : Z, (p == inject_Z k * t)%Q) /\ (t <= p)%Q /\ (p <= 1 - t)%Q in
  let run := create_order order_args options c in
  (valid ->
     fst run <> Raise InvalidPriceError
     /\ exists later,
          steps (snd run)
          = steps c ++ [ResolveTickSize; ValidatePrice; ResolveNegRisk]
              ++ later)
  /\ (~ valid ->
        fst run = Raise InvalidPriceError
        /\ steps (snd run) = steps c ++ [ResolveTickSize; ValidatePrice]).
Proof.
  intros Htick p valid run.
  assert (Hs1 : steps c1 = steps c ++ [ResolveTickSize]).
  { apply resolve_tick_size_steps in Htick. exact Htick. }
  subst run. unfold create_order.
  erewrite bind_ok by reflexivity.
  erewrite bind_ok by exact Htick.
  erewrite bind_ok by reflexivity.
  destruct (price_valid (order_price order_args) t) eqn:Hv; cbn [negb].
  - split; [|intros Hn; exfalso; apply Hn, price_valid_spec, Hv].
    intros _.
    erewrite bind_ok by reflexivity.
    match goal with
    | |- context [bind (resolve_neg_risk ?tok ?o) _ ?c2] =>
        destruct (resolve_neg_risk tok o c2) as [[nr|e] c3] eqn:E1;
        pose proof (resolve_neg_risk_steps _ _ _ _ _ E1) as Hs3;
        simpl in Hs3
    end.
    + erewrite bind_ok by exact E1.
      erewrite bind_ok by reflexivity.
      match goal with
      | |- context [bind (__resolve_fee_rate ?tok ?u) _ ?c4] =>
          destruct (__resolve_fee_rate tok u c4) as [[fee|e] c5] eqn:E2;
          pose proof (resolve_fee_rate_steps _ _ _ _ _ E2) as Hs5;
          simpl in Hs5
      end.
      * erewrite bind_ok by exact E2.
        erewrite bind_ok by reflexivity.
        unfold call.
        destruct (builder_create_order _ _); simpl;
          (split; [congruence|]);
          rewrite Hs5, Hs3, Hs1, <- !app_assoc; simpl;
          eexists; reflexivity.
      * erewrite bind_raise by exact E2. simpl. split.
        -- apply resolve_fee_rate_raises in E2 as [->|[x ->]]; discriminate.
        -- rewrite Hs5, Hs3, Hs1, <- !app_assoc; simpl.
           eexists; reflexivity.
    + erewrite bind_raise by exact E1. simpl. split.
      * apply resolve_neg_risk_external in E1 as [x ->]. discriminate.
      * rewrite Hs3, Hs1, <- !app_assoc; simpl. by exists [].
  - split.
    + intros Hvalid. apply price_valid_spec in Hvalid. subst p. congruence.
    + intros _. simpl. split; [reflexivity|].
      by rewrite Hs1, <- app_assoc.
Qed.



End ClobOrders.

(** A limit order at 0.50 on the market of the fixtures (tick size 0.01)
    passes the price check; at 0.005 it is rejected before the signer. *)
Lemma create_order_price_check_witness :
  let good :=
    Clob.create_order (EX := Fixtures.exchange) (BU := Fixtures.builder)
      (Clob.mkOrderArgs "T" (50 # 100)%Q 10%Q "BUY" None) None
      Clob.new_client in
  let bad :=
    Clob.create_order (EX := Fixtures.exchange) (BU := Fixtures.builder)
      (Clob.mkOrderArgs "T" (5 # 1000)%Q 10%Q "BUY" None) None
      Clob.new_client in
  fst good <> Clob.Raise Clob.InvalidPriceError
  /\ fst bad = Clob.Raise Clob.InvalidPriceError
  /\ Clob.steps (snd bad) = [Clob.ResolveTickSize; Clob.ValidatePrice].
Proof.
  split.
  - refine (proj1 (proj1 (create_order_price_check
                            (EX := Fixtures.exchange)
                            (BU := Fixtures.builder) Clob.new_client _
                            (Clob.mkOrderArgs "T" (50 # 100)%Q 10%Q "BUY" None)
                            None (1 # 100)%Q _) _)).
    + reflexivity.
    + split; [exists 50%Z; reflexivity|]. split; discriminate.
  - refine (proj2 (create_order_price_check
                     (EX := Fixtures.exchange)
                     (BU := Fixtures.builder) Clob.new_client _
                     (Clob.mkOrderArgs "T" (5 # 1000)%Q 10%Q "BUY" None)
                     None (1 # 100)%Q _) _).
    + reflexivity.
    + intros (_ & Hle & _). revert Hle. vm_compute. intros H. by apply H.
Defined.

(** ** Market price discovery *)

(** Total size of a list of levels. *)
Definition depth (levels : list Clob.OrderSummary) : Q :=
  foldr (fun lvl acc => (Clob.size lvl + acc)%Q) 0%Q levels.



#[local] Instance ascending_total : Total Clob.ascending.
Proof.
  intros a b. unfold Clob.ascending.
  destruct (Qlt_le_dec (Clob.price b) (Clob.price a)) as [H|H].
  - right. by apply Qlt_le_weak.
  - by left.
Qed.

#[local] Instance ascending_trans : Transitive Clob.ascending.
Proof. intros a b d. unfold Clob.ascending. apply Qle_trans. Qed.

#[local] Instance descending_total : Total Clob.descending.
Proof. intros a b. destruct (ascending_total a b); [by right | by left]. Qed.

#[local] Instance descending_trans : Transitive Clob.descending.
Proof.
  intros a b d. unfold Clob.descending. intros H1 H2.
  exact (Qle_trans _ _ _ H2 H1).
Qed.

Lemma depth_app (l1 l2 : list Clob.OrderSummary) :
  (depth (l1 ++ l2) == depth l1 + depth l2)%Q.
Proof.
  induction l1 as [|x l1 IH]; simpl.
  - by rewrite Qplus_0_l.
  - rewrite IH. by rewrite Qplus_assoc.
Qed.






Section ClobMarketPrice.

Import Clob.
Context {SignedOrder : Type}.
Context {EX : Exchange SignedOrder} {BU : Builder SignedOrder}.



End ClobMarketPrice.


(** ** The order of the steps *)

(** The steps of order construction and submission, in order; [derive]
    tells whether the price is derived from the book, which only market
    orders with no explicit positive price ask for. *)
Definition construction (derive : bool) : list Clob.Step :=
  [Clob.ResolveTickSize] ++ (if derive then [Clob.DerivePrice] else [])
  ++ [Clob.ValidatePrice; Clob.ResolveNegRisk; Clob.ResolveFeeRate;
      Clob.DelegateSigner].

Definition pipeline (derive : bool) : list Clob.Step :=
  construction derive ++ [Clob.Submit].

(** The steps of [l] up to and including the first [s]. *)
Fixpoint upto (s : Clob.Step) (l : list Clob.Step) : list Clob.Step :=
  match l with
  | [] => []
  | x :: l' => if decide (x = s) then [x] else x :: upto s l'
  end.

(** The step at which each validation error is raised. *)
Definition raising_step (e : Clob.Exn) : option Clob.Step :=
  match e with
  | Clob.InvalidTickSizeError => Some Clob.ResolveTickSize
  | Clob.LiquidityError | Clob.MissingOrderbookError => Some Clob.DerivePrice
  | Clob.InvalidPriceError => Some Clob.ValidatePrice
  | Clob.InvalidFeeRateError => Some Clob.ResolveFeeRate
  | _ => None
  end.

(** How a run that recorded the steps [done] may end: a result after all
    the steps of [all]; a validation error with the steps up to the one
    that raises it; any other exception after some first steps. *)
Definition ends_in_order {A} (all done : list Clob.Step) (r : Clob.Res A)
  : Prop :=
  match r with
  | Clob.Ok _ => done = all
  | Clob.Raise e =>
      match raising_step e with
      | Some s => s ∈ all /\ done = upto s all
      | None => done `prefix_of` all
      end
  end.

Section ClobSteps.

Import Clob.
Context {SignedOrder : Type}.
Context {EX : Exchange SignedOrder} {BU : Builder SignedOrder}.

Lemma resolve_tick_size_raises (token : string) (requested : option Q)
  (c c' : Client) (e : Exn) :
  __resolve_tick_size token requested c = (Raise e, c') ->
  e = InvalidTickSizeError \/ exists x, e = External x.
Proof.
  unfold __resolve_tick_size, get_tick_size, bind, call, set_tick_size,
    raise, ret.
  intros H.
  repeat (match goal with
          | H : (_, _) = (_, _) |- _ => injection H as ??; subst
          | H : context [match ?x with _ => _ end] |- _ => destruct x eqn:?
          end; simpl in *; try congruence); eauto.
Qed.

Lemma calculate_market_price_run (token side : string) (amount : Q)
  (order_type : OrderType) (c c' : Client) (r : Res Q) :
  calculate_market_price token side amount order_type c = (r, c') ->
  c' = c
  /\ forall e, r = Raise e ->
       e = MissingOrderbookError \/ e = LiquidityError \/ e = ValueError
       \/ exists x, e = External x.
Proof.
  unfold calculate_market_price, get_order_book, bind, call, lift, raise,
    calculate_buy_market_price, calculate_sell_market_price.
  intros H.
  repeat (match goal with
          | H : (_, _) = (_, _) |- _ => injection H as ??; subst
          | H : context [match ?x with _ => _ end] |- _ => destruct x eqn:?
          end; simpl in *; try congruence);
    (split; [reflexivity|]); intros e' He;
    repeat (match goal with
            | H : context [match ?x with _ => _ end] |- _ => destruct x eqn:?
            end);
    simplify_eq; eauto 6.
Qed.

(** Case analysis on every test of a run, and the trace of each case. *)
Ltac all_runs :=
  repeat (match goal with
          | |- context [match ?x with _ => _ end] =>
              lazymatch x with
              | context [match _ with _ => _ end] => fail
              | _ => destruct x eqn:?
              end
          end; simpl).

Ltac in_order :=
  eexists; split; [rewrite <- ?app_assoc; reflexivity|];
  simpl;
  first [ reflexivity
        | split; [set_solver | reflexivity]
        | by eexists ].

Lemma create_market_order_run (c : Client) (order_args : MarketOrderArgs)
  (options : option PartialCreateOrderOptions) :
  let run := create_market_order order_args options c in
  exists done,
    steps (snd run) = steps c ++ done
    /\ ends_in_order (construction (needs_market_price (m_price order_args)))
         done (fst run).
Proof.
  intros run. subst run.
  unfold create_market_order, __resolve_tick_size, get_tick_size,
    calculate_market_price, get_order_book, resolve_neg_risk, get_neg_risk,
    __resolve_fee_rate, get_fee_rate_bps, calculate_buy_market_price,
    calculate_sell_market_price, bind, enter, call, lift, raise, ret,
    set_tick_size, set_neg_risk, set_fee_rate, construction.
  destruct (needs_market_price (m_price order_args)) eqn:Hd; simpl.
  - all_runs; in_order.
  - all_runs; in_order.
Qed.

Lemma create_order_run (c : Client) (order_args : OrderArgs)
  (options : option PartialCreateOrderOptions) :
  let run := create_order order_args options c in
  exists done,
    steps (snd run) = steps c ++ done
    /\ ends_in_order (construction false) done (fst run).
Proof.
  intros run. subst run.
  unfold create_order, __resolve_tick_size, get_tick_size,
    resolve_neg_risk, get_neg_risk, __resolve_fee_rate, get_fee_rate_bps,
    bind, enter, call, lift, raise, ret,
    set_tick_size, set_neg_risk, set_fee_rate, construction.
  simpl. all_runs; in_order.
Qed.

(** Submission records its step; what it raises is never a validation
    error. *)
Lemma post_order_run (order : SignedOrder) (order_type : OrderType)
  (c : Client) :
  let run := post_order order order_type c in
  steps (snd run) = steps c ++ [Submit]
  /\ forall e, fst run = Raise e -> exists x, e = External x.
Proof.
  intros run. subst run.
  unfold post_order, try_except_HTTPStatusError, submission_failed,
    http_post, raise_for_status, response_json, OrderPostResponse_new,
    subscript, bind, enter, emit, raise, ret.
  simpl. all_runs; (split; [reflexivity|]); intros e' He; simplify_eq; eauto.
Qed.

Ltac not_in :=
  let H := fresh in
  intros H;
  repeat (apply elem_of_cons in H as [H|H]; [discriminate H|]);
  (by apply elem_of_nil in H).

Lemma upto_app (s : Step) (l l' : list Step) :
  s ∈ l -> upto s (l ++ l') = upto s l.
Proof.
  induction l as [|x l IH]; simpl.
  - intros H. by apply elem_of_nil in H.
  - intros H. destruct (decide (x = s)) as [|Hne]; [reflexivity|].
    apply elem_of_cons in H as [->|H]; [done|]. by rewrite IH.
Qed.

Lemma ends_in_order_raise {A B} (all more done : list Step) (e : Exn) :
  ends_in_order (A := A) all done (Raise e) ->
  ends_in_order (A := B) (all ++ more) done (Raise e).
Proof.
  unfold ends_in_order. destruct (raising_step e) as [s|].
  - intros [Hin ->]. split; [set_solver|]. by rewrite upto_app.
  - apply prefix_app_r.
Qed.

(** A validation error leaves the signer and the submission out. *)
Lemma validation_error_stops {A} (derive : bool) (done : list Step)
  (e : Exn) :
  ends_in_order (A := A) (pipeline derive) done (Raise e) ->
  is_validation_error e = true ->
  (DelegateSigner ∉ done) /\ (Submit ∉ done).
Proof.
  unfold ends_in_order.
  destruct e, derive; simpl; intros Hend Hv; try discriminate Hv;
    destruct Hend as [Hin ->]; simpl;
    first [ exfalso; revert Hin; not_in | split; not_in ].
Qed.

(** Submission after construction, for either kind of order. *)
Lemma construct_then_post (derive : bool) (c : Client)
  (create : M SignedOrder) (order_type : OrderType) :
  (exists done,
     steps (snd (create c)) = steps c ++ done
     /\ ends_in_order (construction derive) done (fst (create c))) ->
  let run := bind create (fun order => post_order order order_type) c in
  exists done,
    steps (snd run) = steps c ++ done
    /\ ends_in_order (pipeline derive) done (fst run)
    /\ (forall e, fst run = Raise e -> is_validation_error e = true ->
          (DelegateSigner ∉ done) /\ (Submit ∉ done)).
Proof.
  intros (done & Hs & Hend) run. subst run. unfold bind.
  destruct (create c) as [[order|e] c1]; simpl in *.
  - subst done.
    destruct (post_order_run order order_type c1) as [Hs' Hext].
    exists (pipeline derive). unfold pipeline.
    rewrite Hs', Hs, <- app_assoc. split; [reflexivity|].
    destruct (post_order order order_type c1) as [[r|e] c2]; simpl in *.
    + split; [reflexivity|]. intros e He. discriminate.
    + destruct (Hext e eq_refl) as [x ->]. simpl.
      split; [done|]. intros e' [= <-]. discriminate.
  - exists done. split; [exact Hs|].
    assert (Hp : ends_in_order (A := option OrderPostResponse)
                   (pipeline derive) done (Raise e)).
    { unfold pipeline.
      exact (ends_in_order_raise (A := SignedOrder) _ _ _ _ Hend). }
    split; [exact Hp|]. intros e' [= <-] Hv.
    exact (validation_error_stops derive done e Hp Hv).
Qed.

(** C5: order construction and submission run their steps in the fixed
    order resolve tick size, derive price (market orders with no explicit
    positive price only), validate price, resolve neg-risk, resolve fee
    rate, delegate to the signer, submit. A run that returns has recorded
    all of them; a run that raises a validation error has recorded the
    steps up to the one that raises it and no later one, so that neither
    the signer is invoked nor the order submitted; a run that raises
    anything else has recorded some first steps. *)
Theorem validation_error_stops_construction (c : Client)
  (options : option PartialCreateOrderOptions) (order_type : OrderType) :
  (forall order_args : MarketOrderArgs,
     let run :=
       create_and_post_market_order order_args options order_type c in
     exists done,
       steps (snd run) = steps c ++ done
       /\ ends_in_order
            (pipeline (needs_market_price (m_price order_args)))
            done (fst run)
       /\ (forall e, fst run = Raise e -> is_validation_error e = true ->
             (DelegateSigner ∉ done) /\ (Submit ∉ done)))
  /\ (forall order_args : OrderArgs,
        let run := create_and_post_order order_args options order_type c in
        exists done,
          steps (snd run) = steps c ++ done
          /\ ends_in_order (pipeline false) done (fst run)
          /\ (forall e, fst run = Raise e -> is_validation_error e = true ->
                (DelegateSigner ∉ done) /\ (Submit ∉ done))).
Proof.
  split; intros order_args.
  - apply construct_then_post, create_market_order_run.
  - apply construct_then_post, create_order_run.
Qed.

End ClobSteps.


(** ** Order submission *)

(** The warnings [post_orders] logs for the outcomes of a batch: one per
    outcome that carries an error message, with its position. *)
Fixpoint warnings (index : nat) (outcomes : list Clob.OrderPostResponse)
  : list Clob.LogEntry :=
  match outcomes with
  | [] => []
  | resp :: rest =>
      (if String.eqb (Clob.error_msg resp) "" then []
       else [Clob.WarnOrderError index (Clob.error_msg resp)])
      ++ warnings (S index) rest
  end.

Section ClobSubmission.

Import Clob.
Context {SignedOrder : Type}.
Context {EX : Exchange SignedOrder} {BU : Builder SignedOrder}.

(** [item] is a dict that the constructor of [OrderPostResponse] turns
    into [resp]. *)
Definition parses_to (item : JSON) (resp : OrderPostResponse) : Prop :=
  exists fields,
    item = JObject fields /\ OrderPostResponse_validate fields = Some resp.

(** The loop visits every item: an outcome with an error message adds a
    warning and the loop goes on. *)
Lemma post_orders_loop_spec (items : list JSON)
  (outcomes : list OrderPostResponse) :
  Forall2 parses_to items outcomes ->
  forall (index : nat) (acc : list OrderPostResponse) (c : Client),
    let run := post_orders_loop index items acc c in
    fst run = Ok (acc ++ outcomes)
    /\ log (snd run) = log c ++ warnings index outcomes
    /\ steps (snd run) = steps c.
Proof.
  induction 1 as [|item resp items outcomes (fields & -> & Hv) _ IH];
    intros index acc c; simpl.
  - by rewrite !app_nil_r.
  - unfold bind, OrderPostResponse_new, ret. rewrite Hv.
    destruct (String.eqb (error_msg resp) "") eqn:E; simpl.
    + destruct (IH (S index) (acc ++ [resp]) c) as (H1 & H2 & H3).
      rewrite <- app_assoc in H1. done.
    + match goal with
      | |- context [post_orders_loop _ _ _ ?c'] =>
          destruct (IH (S index) (acc ++ [resp]) c') as (H1 & H2 & H3)
      end.
      rewrite <- app_assoc in H1. simpl in H2, H3.
      rewrite <- app_assoc in H2. done.
Qed.

(** When the loop returns, every item was a dict that the constructor
    accepted, and the result holds their outcomes in the order of the
    items; when it raises, an item was no dict or was rejected. *)
Lemma post_orders_loop_returns (items : list JSON) :
  forall (index : nat) (acc : list OrderPostResponse) (c : Client),
    match fst (post_orders_loop index items acc c) with
    | Ok result =>
        exists outcomes,
          Forall2 parses_to items outcomes /\ result = acc ++ outcomes
    | Raise e => e = External TypeError \/ e = External ValidationError
    end.
Proof.
  induction items as [|item items IH]; intros index acc c; simpl.
  - exists []. split; [constructor|by rewrite app_nil_r].
  - unfold bind, OrderPostResponse_new, raise, ret.
    destruct item as [| | | | |fields]; simpl; auto.
    destruct (OrderPostResponse_validate fields) as [resp|] eqn:Hv; simpl;
      [|auto].
    destruct (String.eqb (error_msg resp) ""); simpl;
      match goal with
      | |- context [post_orders_loop ?i items ?a ?c'] =>
          specialize (IH i a c');
          destruct (fst (post_orders_loop i items a c')) as [result|e]
      end; try exact IH;
      destruct IH as (outcomes & Hall & ->);
      (exists (resp :: outcomes); split;
       [constructor; [by exists fields|exact Hall]
       |by rewrite <- app_assoc]).
Qed.

(** C6, as the code has it: when the exchange answers a batch with a
    success status and a JSON array, [post_orders] returns one outcome
    per item of that array, in the order of the array: it returns a list
    exactly when every item is a dict that the constructor accepts, and
    the list holds the outcomes of the items, as many as the array has,
    however many orders were submitted. Each outcome that carries an
    error message is logged with its position in the array, and the
    others are returned all the same. *)
Theorem post_orders_follows_response_array (c : Client)
  (args : list (SignedOrder * OrderType)) (status : Z) (items : list JSON) :
  post_orders_endpoint args
  = Responded {| status_code := status; body := Some (JArray items) |} ->
  (200 <= status <= 299)%Z ->
  let run := post_orders args c in
  (forall outcomes,
     Forall2 parses_to items outcomes ->
     fst run = Ok (Some outcomes)
     /\ log (snd run) = log c ++ warnings 0 outcomes)
  /\ (forall result,
        fst run = Ok result ->
        exists outcomes,
          result = Some outcomes
          /\ Forall2 parses_to items outcomes
          /\ length outcomes = length items).
Proof.
  intros Hpost Hstatus run. subst run.
  unfold post_orders. erewrite bind_ok by reflexivity.
  unfold try_except_HTTPStatusError.
  erewrite bind_ok by (unfold http_post; rewrite Hpost; reflexivity).
  erewrite bind_ok.
  2: { unfold raise_for_status, is_success. simpl.
       replace (200 <=? status)%Z with true by (symmetry; apply Z.leb_le; lia).
       replace (status <=? 299)%Z with true by (symmetry; apply Z.leb_le; lia).
       reflexivity. }
  erewrite bind_ok by reflexivity.
  erewrite bind_ok by reflexivity.
  match goal with
  | |- context [bind (post_orders_loop 0 items []) _ ?c'] =>
      pose proof (post_orders_loop_spec items) as Hspec;
      pose proof (post_orders_loop_returns items 0 [] c') as Hret;
      specialize (fun outcomes H => Hspec outcomes H 0 [] c');
      destruct (post_orders_loop 0 items [] c') as [r c2] eqn:E
  end.
  simpl in Hspec, Hret. split.
  - intros outcomes Hitems.
    destruct (Hspec outcomes Hitems) as (H1 & H2 & _). subst r.
    erewrite bind_ok by exact E. simpl. split; [reflexivity|exact H2].
  - intros result. destruct r as [order_responses|e].
    + erewrite bind_ok by exact E. simpl. intros [= <-].
      destruct Hret as (outcomes & Hall & ->).
      exists outcomes. split; [reflexivity|]. split; [exact Hall|].
      symmetry. by eapply Forall2_length.
    + destruct Hret as [-> | ->]; erewrite bind_raise by exact E; simpl;
        discriminate.
Qed.

End ClobSubmission.

(** A batch of three orders whose second order the exchange rejects: three
    results come back, the first and the third successful, and one warning
    is logged for position 1. *)
Lemma post_orders_follows_response_array_witness :
  let run :=
    Clob.post_orders (EX := Fixtures.exchange) (BU := Fixtures.builder)
      [(7%nat, Clob.GTC); (8%nat, Clob.GTC); (9%nat, Clob.FOK)]
      Clob.new_client in
  fst run
  = Clob.Ok (Some [Clob.mkOrderPostResponse "" "" true;
                   Clob.mkOrderPostResponse "bad price" "" false;
                   Clob.mkOrderPostResponse "" "" true])
  /\ Clob.log (snd run) = [Clob.WarnOrderError 1 "bad price"].
Proof.
  refine (proj1 (post_orders_follows_response_array
                   (EX := Fixtures.exchange) (BU := Fixtures.builder)
                   Clob.new_client
                   [(7%nat, Clob.GTC); (8%nat, Clob.GTC); (9%nat, Clob.FOK)]
                   200%Z
                   [JObject [("errorMsg", JString "")];
                    JObject [("errorMsg", JString "bad price")];
                    JObject [("errorMsg", JString "")]]
                   eq_refl _)
            [Clob.mkOrderPostResponse "" "" true;
             Clob.mkOrderPostResponse "bad price" "" false;
             Clob.mkOrderPostResponse "" "" true] _).
  - lia.
  - repeat constructor; eexists; (split; [reflexivity|reflexivity]).
Defined.

(** The claim read on the submitted batch: whenever the exchange answers
    with a success status and an array, one outcome per submitted order
    comes back. *)
Definition one_result_per_order {SignedOrder : Type}
  {EX : Clob.Exchange SignedOrder} {BU : Clob.Builder SignedOrder} : Prop :=
  forall (args : list (SignedOrder * Clob.OrderType)) (c : Clob.Client)
    (status : Z) (items : list JSON),
    Clob.post_orders_endpoint args
    = Clob.Responded {| status_code := status;
                        body := Some (JArray items) |} ->
    (200 <= status <= 299)%Z ->
    exists outcomes,
      fst (Clob.post_orders args c) = Clob.Ok (Some outcomes)
      /\ length outcomes = length args.

(** The client never compares the array with the batch: when the
    exchange answers three orders with an array of one outcome, one
    result comes back. *)
Lemma post_orders_short_reply_counterexample :
  ~ one_result_per_order (EX := exchange_with_short_reply)
      (BU := Fixtures.builder).
Proof.
  intros H.
  destruct (H [(7%nat, Clob.GTC); (8%nat, Clob.GTC); (9%nat, Clob.FOK)]
              Clob.new_client 200%Z [JObject [("errorMsg", JString "")]]
              eq_refl ltac:(lia)) as (outcomes & Hrun & Hlen).
  vm_compute in Hrun. injection Hrun as <-. discriminate Hlen.
Qed.

Section ClobSubmissionFailure.

Import Clob.
Context {SignedOrder : Type}.
Context {EX : Exchange SignedOrder} {BU : Builder SignedOrder}.

(** What [post_order] does with an error response: the handler logs the
    status, then reads the error detail from the body, and returns [None]
    only when the body is a JSON object with an ["error"] field. *)
Lemma post_order_error_response (order : SignedOrder)
  (order_type : OrderType) (c : Client) (r : Response) :
  post_order_endpoint order order_type = Responded r ->
  is_success r = false ->
  let run := post_order order order_type c in
  fst run
  = match body r with
    | None => Raise JSONDecodeError
    | Some (JObject fields) =>
        match dict_get fields "error" with
        | Some _ => Ok None
        | None => Raise KeyError
        end
    | Some _ => Raise TypeError
    end
  /\ exists rest, log (snd run) = log c ++ WarnClientError (status_code r) :: rest.
Proof.
  intros Hpost Herr run. subst run.
  unfold post_order. erewrite bind_ok by reflexivity.
  unfold try_except_HTTPStatusError.
  erewrite bind_ok by (unfold http_post; rewrite Hpost; reflexivity).
  erewrite bind_raise by (unfold raise_for_status; rewrite Herr; reflexivity).
  unfold submission_failed. erewrite bind_ok by reflexivity.
  unfold response_json, subscript, bind, emit, raise, ret. simpl.
  destruct (body r) as [[| | | | |fields]|]; simpl;
    try destruct (dict_get fields "error"); simpl;
    (split; [reflexivity|]); rewrite <- ?app_assoc; simpl;
    eexists; reflexivity.
Qed.

(** When no response arrives, the exception of the transport leaves
    [post_order] and [post_orders]. *)
Lemma post_order_no_response (order : SignedOrder) (order_type : OrderType)
  (c : Client) :
  post_order_endpoint order order_type = NoResponse ->
  fst (post_order order order_type c) = Raise RequestError.
Proof.
  intros Hpost. unfold post_order. erewrite bind_ok by reflexivity.
  unfold try_except_HTTPStatusError.
  by erewrite bind_raise by (unfold http_post; rewrite Hpost; reflexivity).
Qed.

Lemma post_orders_no_response (args : list (SignedOrder * OrderType))
  (c : Client) :
  post_orders_endpoint args = NoResponse ->
  fst (post_orders args c) = Raise RequestError.
Proof.
  intros Hpost. unfold post_orders. erewrite bind_ok by reflexivity.
  unfold try_except_HTTPStatusError.
  by erewrite bind_raise by (unfold http_post; rewrite Hpost; reflexivity).
Qed.

End ClobSubmissionFailure.

(** C7 (the code departs from it): against the exchange of the fixtures,
    an error response with a JSON error detail gives [None] and two
    diagnostics, as claimed; but a 502 whose body is not JSON makes
    [post_order] and [post_orders] raise [JSONDecodeError] after the
    warning, and a request that gets no response makes them raise
    [RequestError]. *)
Theorem submission_failure_can_propagate :
  let post order :=
    Clob.post_order (EX := Fixtures.exchange) (BU := Fixtures.builder)
      order Clob.GTC Clob.new_client in
  let post_batch args :=
    Clob.post_orders (EX := Fixtures.exchange) (BU := Fixtures.builder)
      args Clob.new_client in
  (fst (post 2%nat) = Clob.Ok None
   /\ Clob.log (snd (post 2%nat))
      = [Clob.WarnClientError 400; Clob.PrintDetails (JString "bad price")])
  /\ (fst (post 1%nat) = Clob.Raise (Clob.External JSONDecodeError)
      /\ Clob.log (snd (post 1%nat)) = [Clob.WarnClientError 502])
  /\ fst (post 3%nat) = Clob.Raise (Clob.External RequestError)
  /\ fst (post_batch [(1%nat, Clob.GTC)]) = Clob.Raise (Clob.External JSONDecodeError)
  /\ fst (post_batch []) = Clob.Raise (Clob.External RequestError).
Proof. repeat split; reflexivity. Qed.

(** * Properties of the fetch-all loops *)

Section GammaFetchAll.

Import Gamma.
Context {T : Type}.
Variable endpoint : Z -> Z -> Reply (list T).

(** The loop from page [k] on, when the pages [k .. n - 1] are full and
    page [n] is short. *)
Lemma get_all_loop_spec (default_limit page : Z) (kwargs : Kwargs)
  (pages : nat -> list T) (n : nat) :
  (forall i, i <= n ->
     get_page endpoint default_limit kwargs (page * Z.of_nat i)
     = Got (pages i)) ->
  (forall i, i < n -> (page <= Z.of_nat (length (pages i)))%Z) ->
  (Z.of_nat (length (pages n)) < page)%Z ->
  forall fuel k items requested,
    k <= n -> n - k < fuel ->
    get_all_loop endpoint default_limit page kwargs fuel
      (page * Z.of_nat k) items requested
    = (Returned (items ++ concat (map pages (seq k (S n - k)))),
       requested
       ++ map (fun i => (page * Z.of_nat i)%Z) (seq k (S n - k))).
Proof.
  intros Hpages Hfull Hshort.
  induction fuel as [|fuel IH]; intros k items requested Hk Hfuel; [lia|].
  simpl. rewrite (Hpages k Hk).
  destruct (Z.of_nat (length (pages k)) <? page)%Z eqn:E.
  - apply Z.ltb_lt in E.
    assert (k = n) as ->.
    { destruct (decide (k = n)) as [|Hne]; [done|].
      specialize (Hfull k ltac:(lia)). lia. }
    replace (S n - n) with 1 by lia. simpl. by rewrite app_nil_r.
  - apply Z.ltb_ge in E.
    assert (k < n) as Hlt.
    { destruct (decide (k = n)) as [->|Hne]; [lia|lia]. }
    replace (page * Z.of_nat k + page)%Z with (page * Z.of_nat (S k))%Z
      by lia.
    rewrite IH by lia.
    replace (S n - k) with (S (S n - S k)) by lia. simpl.
    by rewrite <- !app_assoc.
Qed.

(** Whatever keywords are forwarded, [get_all_events] requests the
    offsets 0, 500, 1000, ... one after the other, each once, goes on
    while the page it gets holds at least 500 items, the default page
    size of [get_events], stops at the first page with fewer, and returns
    the pages concatenated in the order received. Without a [limit]
    keyword the pages are requested with that size, and the loop is the
    short-page pager. *)
Theorem get_all_events_short_page (kwargs : Kwargs) (pages : nat -> list T)
  (n fuel : nat) :
  (forall i, i <= n ->
     get_page endpoint 500 kwargs (500 * Z.of_nat i) = Got (pages i)) ->
  (forall i, i < n -> 500 <= length (pages i)) ->
  length (pages n) < 500 ->
  n < fuel ->
  let offsets := map (fun i => (500 * Z.of_nat i)%Z) (seq 0 (S n)) in
  get_all_events endpoint kwargs fuel
  = (Returned (concat (map pages (seq 0 (S n)))), offsets)
  /\ NoDup offsets.
Proof.
  intros Hpages Hfull Hshort Hfuel offsets. subst offsets. split.
  - unfold get_all_events.
    change 0%Z with (500 * Z.of_nat 0)%Z at 1.
    assert (Hfull' : forall i, i < n ->
                       (500 <= Z.of_nat (length (pages i)))%Z).
    { intros i Hi. specialize (Hfull i Hi). lia. }
    assert (Hshort' : (Z.of_nat (length (pages n)) < 500)%Z) by lia.
    rewrite (get_all_loop_spec 500 500 kwargs pages n Hpages Hfull' Hshort'
               fuel 0 [] []) by lia.
    reflexivity.
  - apply NoDup_fmap_2; [|apply NoDup_seq].
    intros i j Hij. lia.
Qed.

(** The offsets requested so far stay in front of those that follow. *)
Lemma get_all_loop_requested (default_limit page : Z) (kwargs : Kwargs)
  (fuel : nat) :
  forall offset items requested,
    exists rest,
      snd (get_all_loop endpoint default_limit page kwargs (S fuel) offset
             items requested)
      = requested ++ offset :: rest.
Proof.
  induction fuel as [|fuel IH]; intros offset items requested.
  - simpl. destruct (get_page _ _ _ _) as [part|e]; [|by exists []].
    destruct (_ <? _)%Z; by exists [].
  - remember (S fuel) as n. simpl.
    destruct (get_page _ _ _ _) as [part|e]; [|by exists []].
    destruct (_ <? _)%Z; [by exists []|]. subst n.
    destruct (IH (offset + page)%Z (items ++ part) (requested ++ [offset]))
      as [rest ->].
    exists ((offset + page)%Z :: rest). by rewrite <- app_assoc.
Qed.

(** C9 (the code departs from it): [get_all_events] forwards a [limit]
    keyword to [get_events] but goes on comparing and advancing with 500.
    When the first page is full, holding as many events as were
    requested, then with a limit below 500 the loop stops after it and
    returns that page alone, and with a limit above 500 the next request
    is at offset 500, inside the page already fetched. *)
Theorem get_all_events_ignores_caller_limit (limit : Z) (part : list T)
  (fuel : nat) :
  endpoint limit 0 = Got part ->
  Z.of_nat (length part) = limit ->
  1 < fuel ->
  let run := get_all_events endpoint (mkKwargs (Some limit)) fuel in
  ((limit < 500)%Z -> run = (Returned part, [0%Z]))
  /\ ((500 < limit)%Z -> exists rest, snd run = 0%Z :: 500%Z :: rest).
Proof.
  intros Hpage Hlen Hfuel run. subst run. unfold get_all_events.
  destruct fuel as [|[|fuel]]; [lia..|]. split; intros Hlimit.
  - cbn [get_all_loop]. unfold get_page. simpl. rewrite Hpage.
    replace (Z.of_nat (length part) <? 500)%Z with true
      by (symmetry; apply Z.ltb_lt; lia).
    reflexivity.
  - cbn [get_all_loop]. unfold get_page at 1. simpl default. rewrite Hpage.
    replace (Z.of_nat (length part) <? 500)%Z with false
      by (symmetry; apply Z.ltb_ge; lia).
    destruct (get_all_loop_requested 500 500 (mkKwargs (Some limit)) fuel
                (0 + 500)%Z ([] ++ part) ([] ++ [0%Z])) as [rest Hrest].
    exists rest. exact Hrest.
Qed.

End GammaFetchAll.

(** Three pages of 500, 500 and 120 events: three requests, 1120 events. *)
Lemma get_all_events_short_page_witness :
  Gamma.get_all_events Fixtures.events_endpoint (Gamma.mkKwargs None) 5
  = (Gamma.Returned (seq 0 1120), [0; 500; 1000]%Z)
  /\ NoDup [0; 500; 1000]%Z.
Proof.
  destruct (get_all_events_short_page Fixtures.events_endpoint
              (Gamma.mkKwargs None)
              (fun i => seq (500 * i) (if decide (i < 2) then 500 else 120))
              2 5) as [Hrun Hoffsets].
  - intros [|[|[|i]]] Hi; [vm_compute; reflexivity.. | lia].
  - intros [|[|i]] Hi; [vm_compute; lia.. | lia].
  - vm_compute. lia.
  - lia.
  - split; [|exact Hoffsets].
    rewrite Hrun. vm_compute. reflexivity.
Defined.

(** Of 1120 events, [limit=100] gets the first 100 and no more. *)
Lemma get_all_events_ignores_caller_limit_witness :
  Gamma.get_all_events Fixtures.events_endpoint
    (Gamma.mkKwargs (Some 100%Z)) 5
  = (Gamma.Returned (seq 0 100), [0%Z]).
Proof.
  refine (proj1 (get_all_events_ignores_caller_limit Fixtures.events_endpoint
                   100%Z (seq 0 100) 5 _ _ _) _).
  - vm_compute. reflexivity.
  - vm_compute. reflexivity.
  - lia.
  - lia.
Defined.

(** Of 1120 events, [limit=1000] gets the events 500 to 999 twice and
    the events from 1000 on three times. *)
Lemma get_all_events_limit_1000_repeats :
  Gamma.get_all_events Fixtures.events_endpoint
    (Gamma.mkKwargs (Some 1000%Z)) 5
  = (Gamma.Returned (seq 0 1000 ++ seq 500 620 ++ seq 1000 120),
     [0; 500; 1000]%Z).
Proof. vm_compute. reflexivity. Qed.

(** * Properties of the websocket client *)

(** ** Credentials of the live-data channel *)

(** Credentials go into the entries whose topic is ["clob_user"], as
    [clob_auth], and the other entries stay as they are. *)
Lemma inject_creds_lookup (subscriptions : list (list (string * JSON)))
  (creds : Websockets.ApiCreds) (i : nat) (sub : list (string * JSON)) :
  subscriptions !! i = Some sub ->
  Websockets.inject_creds subscriptions creds !! i
  = Some (if Websockets.is_clob_user sub
          then Websockets.dict_set sub "clob_auth"
                 (Websockets.model_dump creds)
          else sub).
Proof.
  intros H. unfold Websockets.inject_creds.
  by rewrite list_lookup_fmap, H.
Qed.

Lemma inject_creds_length (subscriptions : list (list (string * JSON)))
  (creds : Websockets.ApiCreds) :
  length (Websockets.inject_creds subscriptions creds)
  = length subscriptions.
Proof. unfold Websockets.inject_creds. apply length_map. Qed.

Lemma dict_set_get (fields : list (string * JSON)) (key : string) (v : JSON) :
  dict_get (Websockets.dict_set fields key v) key = Some v.
Proof.
  induction fields as [|[k x] rest IH]; simpl.
  - by rewrite String.eqb_refl.
  - destruct (String.eqb k key) eqn:E; simpl; rewrite E; [done|exact IH].
Qed.

Lemma dict_set_get_other (fields : list (string * JSON)) (key key' : string)
  (v : JSON) :
  key' <> key ->
  dict_get (Websockets.dict_set fields key v) key' = dict_get fields key'.
Proof.
  intros Hne. induction fields as [|[k x] rest IH]; simpl.
  - destruct (String.eqb key key') eqn:E; [|done].
    apply String.eqb_eq in E. congruence.
  - destruct (String.eqb k key) eqn:E; simpl.
    + apply String.eqb_eq in E. subst k.
      destruct (String.eqb key key') eqn:E'; [|done].
      apply String.eqb_eq in E'. congruence.
    + by rewrite IH.
Qed.

Section LiveData.

Import Websockets.
Context {CO : Codec}.

(** The async stream checks the credentials before it connects. *)
Lemma alive_data_stream_requires_creds
  (subscriptions : list (list (string * JSON))) (parse : bool)
  (connections : list (list string)) :
  needs_auth subscriptions = true ->
  alive_data_stream subscriptions None parse connections
  = ([], Some AuthenticationRequiredError).
Proof. intros H. unfold alive_data_stream. by rewrite H. Qed.

(** With credentials, the handshake of each connection carries the
    subscriptions with the credentials injected. *)
Lemma alive_data_stream_handshake
  (subscriptions : list (list (string * JSON))) (creds : ApiCreds)
  (parse : bool) (messages : list string)
  (connections : list (list string)) :
  needs_auth subscriptions = true ->
  exists rest r,
    alive_data_stream subscriptions (Some creds) parse
      (messages :: connections)
    = (Connect url_live_data
       :: Send (subscribe_payload (inject_creds subscriptions creds))
       :: rest, r).
Proof.
  intros H. unfold alive_data_stream. rewrite H. simpl.
  destruct (frames _ messages) as [acts [e|]]; [by eauto|].
  destruct (stream _ _ _ connections) as [acts' r]. eauto.
Qed.

(** The sync socket sends the same handshake once the socket is ready. *)
Lemma live_data_socket_handshake {E : Type}
  (process_event : string -> option E)
  (subscriptions : list (list (string * JSON))) (creds : ApiCreds) :
  needs_auth subscriptions = true ->
  live_data_socket subscriptions process_event (Some creds)
    [Connecting; Connected; Ready]
  = ([Connect url_live_data;
      Send (subscribe_payload (inject_creds subscriptions creds))], None).
Proof. intros H. unfold live_data_socket. by rewrite H. Qed.

(** Without a [Ready] event the sync socket never looks at the
    credentials. *)
Lemma live_data_socket_not_ready {E : Type}
  (process_event : string -> option E)
  (subscriptions : list (list (string * JSON))) (creds : option ApiCreds)
  (events : list LomondEvent) :
  Ready ∉ events ->
  forall e, snd (live_data_socket subscriptions process_event creds events)
            <> Some (Own e).
Proof.
  intros Hready e. unfold live_data_socket.
  assert (H : snd (live_data_events process_event (needs_auth subscriptions)
                     subscriptions creds events) <> Some (Own e)).
  { induction events as [|ev events IH]; [done|].
    assert (Ready ∉ events) as Hrest by set_solver.
    specialize (IH Hrest).
    destruct ev; simpl; try exact IH.
    - set_solver.
    - destruct (process_event text); [done|].
      destruct (live_data_events _ _ _ _ events); exact IH. }
  destruct (live_data_events _ _ _ _ events). exact H.
Qed.

End LiveData.

(** C8 (the code departs from it): for a subscription to ["clob_user"]
    without credentials, the async stream raises
    [AuthenticationRequiredError] before any connection, but the sync
    socket has connected by the time it raises, on the ready event, and
    raises nothing while the connection keeps failing. *)
Theorem live_data_socket_connects_before_auth_check :
  forall (E : Type) (process_event : string -> option E),
  let subscriptions := [[("topic", JString "clob_user")]] in
  Websockets.alive_data_stream (CO := Fixtures.codec) subscriptions None true
    [["pong"]]
  = ([], Some Websockets.AuthenticationRequiredError)
  /\ Websockets.live_data_socket subscriptions process_event None
       [Websockets.Connecting; Websockets.Connected; Websockets.Ready]
     = ([Websockets.Connect Websockets.url_live_data],
        Some (Websockets.Own Websockets.AuthenticationRequiredError))
  /\ Websockets.live_data_socket subscriptions process_event None
       [Websockets.Connecting; Websockets.ConnectFail;
        Websockets.Connecting; Websockets.ConnectFail]
     = ([Websockets.Connect Websockets.url_live_data], None).
Proof. intros E process_event. repeat split; reflexivity. Qed.

(** ** Array frames of the market channel *)

(** The claim read for either value of [parse]: every element of an array
    frame is yielded as the dispatch returns it. *)
Definition array_elements_dispatched {CO : Websockets.Codec} (parse : bool)
  (message : string) : Prop :=
  forall data,
    Websockets.json_loads message = Some (JArray data) ->
    exists events,
      Websockets.market_frame parse message
      = (map Websockets.Yield events, None)
      /\ Forall2 (fun item ev =>
                    Websockets.parse_market_event item = Websockets.Ok ev)
           data events.

Section MarketStream.

Import Websockets.
Context {CO : Codec}.

Lemma yield_items_spec (parse : bool) (data : list JSON) :
  (parse = true ->
   Forall (fun item => exists ev, parse_market_event item = Ok ev) data) ->
  exists events,
    yield_items parse data = (map Yield events, None)
    /\ Forall2 (fun item ev =>
                  if parse then parse_market_event item = Ok ev
                  else ev = Plain item)
         data events.
Proof.
  induction data as [|item data IH]; intros Hok.
  - exists []. split; [reflexivity|constructor].
  - destruct IH as (events & Hrun & Hall).
    { intros Hp. specialize (Hok Hp). by inversion Hok. }
    simpl. destruct parse; simpl.
    + specialize (Hok eq_refl). inversion Hok as [|? ? [ev Hev] _]; subst.
      rewrite Hev, Hrun. exists (ev :: events).
      split; [reflexivity|]. by constructor.
    + rewrite Hrun. exists (Plain item :: events).
      split; [reflexivity|]. by constructor.
Qed.

(** C10, as the code has it: a frame that is not JSON is yielded as the
    raw wrapper and nothing is raised; a frame whose payload is an array
    yields one event per element, in order, never the array itself: with
    [parse] set, the result of the dispatch on each element (when every
    element is a dict that its event type accepts), and without [parse]
    the element as it is. *)
Theorem market_frame_array (parse : bool) (message : string) :
  (json_loads message = None ->
   market_frame parse message = ([Yield (raw message)], None))
  /\ (forall data,
        json_loads message = Some (JArray data) ->
        (parse = true ->
         Forall (fun item => exists ev, parse_market_event item = Ok ev)
           data) ->
        exists events,
          market_frame parse message = (map Yield events, None)
          /\ length events = length data
          /\ Forall2 (fun item ev =>
                        if parse then parse_market_event item = Ok ev
                        else ev = Plain item)
               data events).
Proof.
  split.
  - intros H. unfold market_frame. by rewrite H.
  - intros data H Hok. unfold market_frame. rewrite H.
    destruct (yield_items_spec parse data Hok) as (events & Hrun & Hall).
    exists events. repeat split; [exact Hrun| |exact Hall].
    symmetry. by eapply Forall2_length.
Qed.

(** A stream with one connection that receives one frame yields what the
    frame yields, after the handshake. *)
Lemma amarket_stream_one_frame (token_ids : list string) (parse : bool)
  (message : string) :
  amarket_stream token_ids parse [[message]]
  = (Connect url_market
     :: Send (JObject [("assets_ids", JArray (map JString token_ids))])
     :: fst (market_frame parse message),
     snd (market_frame parse message)).
Proof.
  unfold amarket_stream. simpl.
  destruct (market_frame parse message) as [acts [e|]]; simpl; [done|].
  by rewrite !app_nil_r.
Qed.

End MarketStream.

Lemma market_frame_array_witness :
  Websockets.market_frame (CO := Fixtures.codec) true "pong"
  = ([Websockets.Yield (Websockets.raw "pong")], None)
  /\ exists events,
       Websockets.market_frame (CO := Fixtures.codec) true "[book]"
       = (map Websockets.Yield events, None)
       /\ length events = 1.
Proof.
  split.
  - exact (proj1 (market_frame_array (CO := Fixtures.codec) true "pong")
             eq_refl).
  - destruct (proj2 (market_frame_array (CO := Fixtures.codec) true "[book]")
                [JObject Fixtures.book_message] eq_refl)
      as (events & Hrun & Hlen & _).
    + intros _. repeat constructor. eexists. reflexivity.
    + exists events. split; [exact Hrun | exact Hlen].
Defined.

(** With [parse=False] the element of the array frame is yielded as it
    is, not as the book event the dispatch makes of it. *)
Lemma market_frame_parse_counterexample :
  ~ array_elements_dispatched (CO := Fixtures.codec) false "[book]".
Proof.
  intros H.
  destruct (H [JObject Fixtures.book_message] eq_refl)
    as (events & Hrun & Hall).
  inversion Hall as [|item ev data events' Hev Hrest]; subst.
  inversion Hrest; subst.
  vm_compute in Hrun. vm_compute in Hev.
  injection Hrun as Hrun. injection Hev as Hev. congruence.
Qed.

(** * Further properties of the order client *)

(** Membership in a list of constructors that differ from the element. *)
Ltac absurd_elem H :=
  repeat (apply elem_of_cons in H as [H|H]; [discriminate H|]);
  (by apply elem_of_nil in H).

(** ** The metadata caches *)

Section ClobCaches.

Import Clob.
Context {SignedOrder : Type}.
Context {BU : Builder SignedOrder}.

(** X1: once a lookup of the tick size, of the neg-risk flag or of the fee
    rate has succeeded for a token, every later lookup for that token
    returns the same value and leaves the client as it is, whatever the
    exchange would answer by then: the value is never fetched again. *)
Theorem cached_value_is_returned_unchanged
  (first later : Exchange SignedOrder) (token : string) :
  (forall c c' t,
     get_tick_size (EX := first) token c = (Ok t, c') ->
     get_tick_size (EX := later) token c' = (Ok t, c'))
  /\ (forall c c' b,
        get_neg_risk (EX := first) token c = (Ok b, c') ->
        get_neg_risk (EX := later) token c' = (Ok b, c'))
  /\ (forall c c' f,
        get_fee_rate_bps (EX := first) token c = (Ok f, c') ->
        get_fee_rate_bps (EX := later) token c' = (Ok f, c')).
Proof.
  repeat split; intros c c' v.
  - unfold get_tick_size at 1. destruct (tick_sizes c !! token) eqn:E.
    + intros [= <- <-]. unfold get_tick_size. by rewrite E.
    + unfold bind, call, set_tick_size, ret.
      destruct (tick_size_endpoint token); [|discriminate].
      intros [= <- <-]. unfold get_tick_size. simpl.
      by rewrite lookup_insert_eq.
  - unfold get_neg_risk at 1. destruct (neg_risk c !! token) eqn:E.
    + intros [= <- <-]. unfold get_neg_risk. by rewrite E.
    + unfold bind, call, set_neg_risk, ret.
      destruct (neg_risk_endpoint token); [|discriminate].
      intros [= <- <-]. unfold get_neg_risk. simpl.
      by rewrite lookup_insert_eq.
  - unfold get_fee_rate_bps at 1. destruct (fee_rates c !! token) eqn:E.
    + intros [= <- <-]. unfold get_fee_rate_bps. by rewrite E.
    + unfold bind, call, set_fee_rate, ret.
      destruct (fee_rate_endpoint token); [|discriminate].
      intros [= <- <-]. unfold get_fee_rate_bps. simpl.
      by rewrite lookup_insert_eq.
Qed.

Context {EX : Exchange SignedOrder}.

(** X2: a lookup that raises stores nothing: the client is exactly as
    before, so the next lookup asks the exchange again. *)
Theorem failed_lookup_is_not_cached (token : string) (c c' : Client)
  (e : Exn) :
  (get_tick_size token c = (Raise e, c') -> c' = c)
  /\ (get_neg_risk token c = (Raise e, c') -> c' = c)
  /\ (get_fee_rate_bps token c = (Raise e, c') -> c' = c).
Proof.
  repeat split.
  - unfold get_tick_size, bind, call, set_tick_size, ret.
    destruct (tick_sizes c !! token); [discriminate|].
    destruct (tick_size_endpoint token); [discriminate|]. by intros [= _ <-].
  - unfold get_neg_risk, bind, call, set_neg_risk, ret.
    destruct (neg_risk c !! token); [discriminate|].
    destruct (neg_risk_endpoint token); [discriminate|]. by intros [= _ <-].
  - unfold get_fee_rate_bps, bind, call, set_fee_rate, ret.
    destruct (fee_rates c !! token); [discriminate|].
    destruct (fee_rate_endpoint token); [discriminate|]. by intros [= _ <-].
Qed.

(** X3: a tick-size lookup for one token touches nothing else: the
    entries of every other token, the neg-risk and fee-rate caches and the
    diagnostics stay as they are, and an entry already cached is never
    replaced. *)
Theorem get_tick_size_frame (token : string) (c c' : Client) (r : Res Q) :
  get_tick_size token c = (r, c') ->
  (forall other, other <> token ->
     tick_sizes c' !! other = tick_sizes c !! other)
  /\ (forall t, tick_sizes c !! token = Some t ->
        tick_sizes c' !! token = Some t)
  /\ neg_risk c' = neg_risk c
  /\ fee_rates c' = fee_rates c
  /\ log c' = log c.
Proof.
  unfold get_tick_size, bind, call, set_tick_size, ret.
  destruct (tick_sizes c !! token) eqn:E.
  - intros [= <- <-]. repeat split; try done. intros t' [= <-]. exact E.
  - destruct (tick_size_endpoint token); intros [= <- <-]; simpl;
      repeat split; try done.
    intros other Hne. by rewrite lookup_insert_ne.
Qed.

(** X4: when the exchange reports no base fee for the token, the market
    fee rate is 0, it is cached as 0, and fee-rate resolution returns 0
    for every rate the caller supplies: no caller rate is rejected. *)
Theorem missing_base_fee_is_zero (token : string) (user : option Z)
  (c : Client) :
  fee_rates c !! token = None ->
  fee_rate_endpoint token = Got None ->
  fst (__resolve_fee_rate token user c) = Ok 0%Z
  /\ fee_rates (snd (__resolve_fee_rate token user c)) !! token = Some 0%Z.
Proof.
  intros Hmiss Hfee.
  unfold __resolve_fee_rate, get_fee_rate_bps, bind, call, set_fee_rate, ret.
  rewrite Hmiss, Hfee. simpl. split; [done|]. apply lookup_insert_eq.
Qed.

(** X5: tick-size resolution caches the market minimum and nothing else:
    when the minimum for the token is [minimum], the cache holds
    [minimum] after the resolution, also when the resolution returns a
    coarser tick size that the caller requested and when it rejects a
    finer one. *)
Theorem resolve_tick_size_caches_minimum (token : string)
  (requested : option Q) (c c' : Client) (minimum : Q) :
  get_tick_size token c = (Ok minimum, c') ->
  snd (__resolve_tick_size token requested c) = c'
  /\ tick_sizes c' !! token = Some minimum.
Proof.
  intros H. split; [|by eapply get_tick_size_cached].
  unfold __resolve_tick_size, bind. rewrite H.
  destruct requested as [t|]; [|done].
  by destruct (is_tick_size_smaller t minimum).
Qed.

End ClobCaches.

Lemma cached_value_is_returned_unchanged_witness :
  let c' := snd (Clob.get_fee_rate_bps (EX := Fixtures.exchange) "T"
                   Clob.new_client) in
  Clob.get_fee_rate_bps (EX := exchange_without_fee) "T" c'
  = (Clob.Ok 50%Z, c').
Proof.
  exact (proj2 (proj2 (cached_value_is_returned_unchanged
                         Fixtures.exchange exchange_without_fee "T"))
           Clob.new_client _ 50%Z eq_refl).
Defined.

Lemma failed_lookup_is_not_cached_witness :
  snd (Clob.get_neg_risk
         (EX := with_neg_risk Fixtures.exchange (fun _ => Fault RequestError))
         "T" Clob.new_client)
  = Clob.new_client.
Proof.
  exact (proj1 (proj2 (failed_lookup_is_not_cached
                         (EX := with_neg_risk Fixtures.exchange
                                  (fun _ => Fault RequestError))
                         "T" Clob.new_client _ (Clob.External RequestError)))
           eq_refl).
Defined.

Lemma get_tick_size_frame_witness :
  Clob.tick_sizes
    (snd (Clob.get_tick_size (EX := Fixtures.exchange) "T" Clob.new_client))
    !! "U" = None
  /\ Clob.neg_risk
       (snd (Clob.get_tick_size (EX := Fixtures.exchange) "T"
               Clob.new_client)) = ∅.
Proof.
  destruct (get_tick_size_frame (EX := Fixtures.exchange) "T"
              Clob.new_client _ _ eq_refl) as (H1 & _ & H3 & _).
  split; [by rewrite H1 | exact H3].
Defined.

Lemma missing_base_fee_is_zero_witness :
  fst (Clob.__resolve_fee_rate (EX := exchange_without_fee) "T" (Some 30%Z)
         Clob.new_client) = Clob.Ok 0%Z.
Proof.
  exact (proj1 (missing_base_fee_is_zero (EX := exchange_without_fee) "T"
                  (Some 30%Z) Clob.new_client eq_refl eq_refl)).
Defined.

Lemma resolve_tick_size_caches_minimum_witness :
  Clob.tick_sizes
    (snd (Clob.__resolve_tick_size (EX := Fixtures.exchange) "T"
            (Some (1 # 10)%Q) Clob.new_client)) !! "T"
  = Some (1 # 100)%Q.
Proof.
  destruct (resolve_tick_size_caches_minimum (EX := Fixtures.exchange) "T"
              (Some (1 # 10)%Q) Clob.new_client _ (1 # 100)%Q eq_refl)
    as [H1 H2].
  by rewrite H1.
Defined.

(** ** What order construction reads and what it hands to the signer *)

Section ClobConstruction.

Import Clob.
Context {SignedOrder : Type}.
Context {EX : Exchange SignedOrder} {BU : Builder SignedOrder}.

Ltac all_cases :=
  repeat (match goal with
          | H : context [match ?x with _ => _ end] |- _ =>
              lazymatch x with
              | context [match _ with _ => _ end] => fail
              | _ => destruct x eqn:?
              end
          end; simpl in *; try discriminate).

(** X6: every order that [create_order] returns was signed with the
    checks passed: the signer was given the caller's order with the fee
    rate replaced by the market's, which is the cached one, and a tick
    size for which the price passed the price check and which is not
    smaller than the cached market minimum. *)
Theorem created_order_is_validated (order_args : OrderArgs)
  (options : option PartialCreateOrderOptions) (c c' : Client)
  (order : SignedOrder) :
  create_order order_args options c = (Ok order, c') ->
  exists t b fee minimum,
    builder_create_order
      {| token_id := token_id order_args;
         order_price := order_price order_args;
         order_size := order_size order_args;
         order_side := order_side order_args;
         fee_rate_bps := Some fee |}
      {| tick_size := t; is_neg_risk := b |} = Got order
    /\ price_valid (order_price order_args) t = true
    /\ fee_rates c' !! token_id order_args = Some fee
    /\ tick_sizes c' !! token_id order_args = Some minimum
    /\ is_tick_size_smaller t minimum = false.
Proof.
  unfold create_order, __resolve_tick_size, get_tick_size,
    resolve_neg_risk, get_neg_risk, __resolve_fee_rate, get_fee_rate_bps,
    bind, enter, call, lift, raise, ret,
    set_tick_size, set_neg_risk, set_fee_rate.
  simpl. intros H. all_cases.
  all: injection H as <- <-; simpl.
  all: repeat eexists; try eassumption;
    rewrite ?lookup_insert_eq; try done;
    first [ by apply negb_false_iff
          | apply Qltb_ge, Qle_refl ].
Qed.

(** X7: a market order with an explicit positive price is built without
    the order book: the run is the same whatever the book endpoint would
    answer, also when it would fail. *)
Theorem priced_market_order_ignores_book (order_args : MarketOrderArgs)
  (options : option PartialCreateOrderOptions) (c : Client)
  (book : string -> Reply (option OrderBookSummary)) (p : Q) :
  m_price order_args = Some p ->
  (0 < p)%Q ->
  create_market_order (EX := with_order_book EX book) order_args options c
  = create_market_order order_args options c.
Proof.
  intros Hp Hpos. unfold create_market_order. rewrite Hp. simpl.
  replace (Qle_bool p 0) with false; [reflexivity|].
  symmetry. apply Qltb_lt in Hpos. unfold Qltb in Hpos.
  by apply negb_true_iff in Hpos.
Qed.

(** X8: with a neg-risk flag in the options, limit and market orders are
    built without the neg-risk endpoint: the run is the same whatever
    that endpoint would answer, and the neg-risk cache is not written. *)
Theorem neg_risk_override_ignores_exchange
  (options : PartialCreateOrderOptions) (b : bool) (c : Client)
  (flag : string -> Reply bool) :
  opt_neg_risk options = Some b ->
  (forall order_args : OrderArgs,
     create_order (EX := with_neg_risk EX flag) order_args (Some options) c
     = create_order order_args (Some options) c
     /\ neg_risk (snd (create_order order_args (Some options) c))
        = neg_risk c)
  /\ (forall order_args : MarketOrderArgs,
        create_market_order (EX := with_neg_risk EX flag) order_args
          (Some options) c
        = create_market_order order_args (Some options) c
        /\ neg_risk (snd (create_market_order order_args (Some options) c))
           = neg_risk c).
Proof.
  destruct options as [ts nr]. simpl. intros ->.
  split; intros order_args; (split; [reflexivity|]).
  - unfold create_order, __resolve_tick_size, get_tick_size,
      resolve_neg_risk, __resolve_fee_rate, get_fee_rate_bps,
      bind, enter, call, lift, raise, ret,
      set_tick_size, set_neg_risk, set_fee_rate.
    simpl.
    repeat (match goal with
            | |- context [match ?x with _ => _ end] =>
                lazymatch x with
                | context [match _ with _ => _ end] => fail
                | _ => destruct x eqn:?
                end
            end; simpl); reflexivity.
  - unfold create_market_order, __resolve_tick_size, get_tick_size,
      calculate_market_price, get_order_book,
      resolve_neg_risk, __resolve_fee_rate, get_fee_rate_bps,
      calculate_buy_market_price, calculate_sell_market_price,
      bind, enter, call, lift, raise, ret,
      set_tick_size, set_neg_risk, set_fee_rate.
    simpl.
    repeat (match goal with
            | |- context [match ?x with _ => _ end] =>
                lazymatch x with
                | context [match _ with _ => _ end] => fail
                | _ => destruct x eqn:?
                end
            end; simpl); reflexivity.
Qed.

End ClobConstruction.

Lemma created_order_is_validated_witness :
  exists t b fee,
    Clob.builder_create_order (Builder := Fixtures.builder)
      (Clob.mkOrderArgs "T" (50 # 100)%Q 10%Q "BUY" (Some fee))
      (Clob.mkOptions t b) = Got 1%nat
    /\ Clob.price_valid (50 # 100)%Q t = true.
Proof.
  pose (run := Clob.create_order
                 (EX := Fixtures.exchange) (BU := Fixtures.builder)
                 (Clob.mkOrderArgs "T" (50 # 100)%Q 10%Q "BUY" None) None
                 Clob.new_client).
  assert (Hrun : run = (Clob.Ok 1%nat, snd run)) by (vm_compute; reflexivity).
  destruct (created_order_is_validated
              (EX := Fixtures.exchange) (BU := Fixtures.builder)
              _ _ _ _ _ Hrun)
    as (t & b & fee & minimum & H1 & H2 & _).
  exists t, b, fee. by split.
Defined.

Lemma priced_market_order_ignores_book_witness :
  Clob.create_market_order
    (EX := with_order_book Fixtures.exchange (fun _ => Fault RequestError))
    (BU := Fixtures.builder)
    (Clob.mkMarketOrderArgs "T" 25%Q "BUY" (Some (41 # 100)%Q) None Clob.FOK)
    None Clob.new_client
  = Clob.create_market_order
      (EX := Fixtures.exchange) (BU := Fixtures.builder)
      (Clob.mkMarketOrderArgs "T" 25%Q "BUY" (Some (41 # 100)%Q) None
         Clob.FOK)
      None Clob.new_client.
Proof.
  refine (priced_market_order_ignores_book
            (EX := Fixtures.exchange) (BU := Fixtures.builder)
            (Clob.mkMarketOrderArgs "T" 25%Q "BUY" (Some (41 # 100)%Q) None
               Clob.FOK)
            None Clob.new_client _ (41 # 100)%Q eq_refl _).
  reflexivity.
Defined.

Lemma neg_risk_override_ignores_exchange_witness :
  Clob.neg_risk
    (snd (Clob.create_order (EX := Fixtures.exchange)
            (BU := Fixtures.builder)
            (Clob.mkOrderArgs "T" (50 # 100)%Q 10%Q "BUY" None)
            (Some (Clob.mkPartialOptions None (Some true)))
            Clob.new_client))
  = ∅.
Proof.
  exact (proj2 (proj1 (neg_risk_override_ignores_exchange
                         (EX := Fixtures.exchange) (BU := Fixtures.builder)
                         (Clob.mkPartialOptions None (Some true)) true
                         Clob.new_client (fun _ => Fault RequestError)
                         eq_refl)
                  (Clob.mkOrderArgs "T" (50 # 100)%Q 10%Q "BUY" None))).
Defined.

(** ** Batches of orders *)

Section ClobBatchProperties.

Import Clob ClobBatch.
Context {SignedOrder : Type}.
Context {EX : Exchange SignedOrder} {BU : Builder SignedOrder}.




End ClobBatchProperties.


Section ClobBatchModes.

Import Clob ClobBatch.
Context {SignedOrder : Type}.
Context {EX : Exchange SignedOrder} {BU : Builder SignedOrder}.

Lemma create_each_then_zip (args : list OrderArgs)
  (order_types : list OrderType) (c : Client) :
  length args = length order_types ->
  bind (create_each args) (fun orders => zip_strict orders order_types) c
  = create_zipped args order_types c.
Proof.
  revert order_types c.
  induction args as [|a args IH]; intros [|t order_types] c Hlen;
    simpl in Hlen; try lia; [reflexivity|].
  injection Hlen as Hlen. simpl. unfold bind.
  destruct (create_order a None c) as [[o|e] c1]; [|reflexivity].
  specialize (IH order_types c1 Hlen). unfold bind in IH.
  rewrite <- IH.
  destruct (create_each args c1) as [[orders|e] c2]; reflexivity.
Qed.

(** X10: for lists of the same length the blocking and the suspending
    batch helpers do the same: [create_and_post_orders], which creates
    each order as the zip produces its pair, and
    [acreate_and_post_orders], which creates all orders and zips
    afterwards, give the same result and leave the same client. *)
Theorem batch_modes_agree (args : list OrderArgs)
  (order_types : list OrderType) (c : Client) :
  length args = length order_types ->
  acreate_and_post_orders args order_types c
  = create_and_post_orders args order_types c.
Proof.
  intros Hlen. unfold acreate_and_post_orders, create_and_post_orders.
  pose proof (create_each_then_zip args order_types c Hlen) as H.
  unfold bind in *.
  destruct (create_each args c) as [[orders|e] c1];
    destruct (create_zipped args order_types c) as [[batch|e'] c2];
    simpl in *.
  - destruct (zip_strict orders order_types c1) as [[b|e] c3];
      by simplify_eq.
  - destruct (zip_strict orders order_types c1) as [[b|e] c3];
      by simplify_eq.
  - by simplify_eq.
  - by simplify_eq.
Qed.

End ClobBatchModes.

Lemma batch_modes_agree_witness :
  ClobBatch.acreate_and_post_orders
    (EX := Fixtures.exchange) (BU := Fixtures.builder)
    [Clob.mkOrderArgs "T" (50 # 100)%Q 10%Q "BUY" None] [Clob.GTC]
    Clob.new_client
  = ClobBatch.create_and_post_orders
      (EX := Fixtures.exchange) (BU := Fixtures.builder)
      [Clob.mkOrderArgs "T" (50 # 100)%Q 10%Q "BUY" None] [Clob.GTC]
      Clob.new_client.
Proof.
  exact (batch_modes_agree (EX := Fixtures.exchange) (BU := Fixtures.builder)
           [Clob.mkOrderArgs "T" (50 # 100)%Q 10%Q "BUY" None] [Clob.GTC]
           Clob.new_client eq_refl).
Defined.

(** ** What a submission returns *)

Section ClobSubmissionResults.

Import Clob.
Context {SignedOrder : Type}.
Context {EX : Exchange SignedOrder} {BU : Builder SignedOrder}.

(** X11: [post_order] returns [None] only for an error response whose
    body is a JSON object with an ["error"] field, and then exactly two
    diagnostics were emitted: the warning with the status and the print
    of the detail. *)
Theorem post_order_none_means_rejected (order : SignedOrder)
  (order_type : OrderType) (c : Client) :
  fst (post_order order order_type c) = Ok None ->
  exists r fields detail,
    post_order_endpoint order order_type = Responded r
    /\ is_success r = false
    /\ body r = Some (JObject fields)
    /\ dict_get fields "error" = Some detail
    /\ log (snd (post_order order order_type c))
       = log c ++ [WarnClientError (status_code r); PrintDetails detail].
Proof.
  unfold post_order, try_except_HTTPStatusError, submission_failed,
    http_post, raise_for_status, response_json, OrderPostResponse_new,
    subscript, bind, enter, emit, raise, ret.
  simpl.
  destruct (post_order_endpoint order order_type) as [r|]; simpl;
    [|discriminate].
  destruct (is_success r) eqn:Hs; simpl.
  - destruct (body r) as [[| | | | |fields]|]; simpl; try discriminate.
    destruct (OrderPostResponse_validate fields); discriminate.
  - destruct (body r) as [[| | | | |fields]|] eqn:Hb; simpl;
      try discriminate.
    destruct (dict_get fields "error") as [detail|] eqn:Hd; simpl;
      [|discriminate].
    intros _. exists r, fields, detail.
    repeat split; try done. by rewrite <- app_assoc.
Qed.

(** X12: on a success response [post_order] returns the acknowledgment
    that the constructor makes of the body and emits no diagnostic; a
    success response whose body is not JSON, not a dict, or not accepted
    by the constructor raises, it does not give [None]. *)
Theorem post_order_success_response (order : SignedOrder)
  (order_type : OrderType) (c : Client) (r : Response) :
  post_order_endpoint order order_type = Responded r ->
  is_success r = true ->
  fst (post_order order order_type c)
  = match body r with
    | None => Raise JSONDecodeError
    | Some (JObject fields) =>
        match OrderPostResponse_validate fields with
        | Some resp => Ok (Some resp)
        | None => Raise ValidationError
        end
    | Some _ => Raise TypeError
    end
  /\ log (snd (post_order order order_type c)) = log c.
Proof.
  intros Hpost Hs.
  unfold post_order, try_except_HTTPStatusError, submission_failed,
    http_post, raise_for_status, response_json, OrderPostResponse_new,
    subscript, bind, enter, emit, raise, ret.
  simpl. rewrite Hpost. simpl. rewrite Hs. simpl.
  destruct (body r) as [[| | | | |fields]|]; simpl; try done.
  by destruct (OrderPostResponse_validate fields).
Qed.

(** One round of the loop on an item that is an outcome. *)
Lemma post_orders_loop_step (fields : list (string * JSON))
  (resp : OrderPostResponse) (items : list JSON) (index : nat)
  (acc : list OrderPostResponse) (c : Client) :
  OrderPostResponse_validate fields = Some resp ->
  post_orders_loop index (JObject fields :: items) acc c
  = post_orders_loop (S index) items (acc ++ [resp])
      (if String.eqb (error_msg resp) "" then c
       else snd (emit (WarnOrderError index (error_msg resp)) c)).
Proof.
  intros Hv. simpl. unfold bind, OrderPostResponse_new, ret. rewrite Hv.
  by destruct (String.eqb (error_msg resp) "").
Qed.

(** The loop stops at the first item that is no outcome. *)
Lemma post_orders_loop_malformed (good : list JSON)
  (outcomes : list OrderPostResponse) (bad : JSON) (rest : list JSON) :
  Forall2 parses_to good outcomes ->
  (forall resp, ~ parses_to bad resp) ->
  forall (index : nat) (acc : list OrderPostResponse) (c : Client),
    (fst (post_orders_loop index (good ++ bad :: rest) acc c)
     = Raise TypeError
     \/ fst (post_orders_loop index (good ++ bad :: rest) acc c)
        = Raise ValidationError)
    /\ log (snd (post_orders_loop index (good ++ bad :: rest) acc c))
       = log c ++ warnings index outcomes.
Proof.
  intros Hgood Hbad.
  induction Hgood as [|item resp good outcomes (fields & -> & Hv) _ IH];
    intros index acc c.
  - simpl. rewrite app_nil_r. unfold bind, OrderPostResponse_new, raise, ret.
    destruct bad as [| | | | |fields]; simpl; auto.
    destruct (OrderPostResponse_validate fields) as [resp|] eqn:Hv;
      simpl; auto.
    exfalso. apply (Hbad resp). by exists fields.
  - rewrite <- app_comm_cons, (post_orders_loop_step _ _ _ _ _ _ Hv).
    simpl warnings.
    destruct (String.eqb (error_msg resp) "") eqn:E.
    + apply IH.
    + match goal with
      | |- context [post_orders_loop _ _ _ ?c'] =>
          destruct (IH (S index) (acc ++ [resp]) c') as (H1 & H2)
      end.
      split; [exact H1|]. rewrite H2. simpl. by rewrite <- app_assoc.
Qed.

(** X13: one malformed outcome spoils the batch: when an item of the
    array of a success response is not a dict that the constructor
    accepts, [post_orders] raises [TypeError] or [ValidationError] and
    returns no outcome at all, not even those before it, although the
    warnings for those were logged. *)
Theorem post_orders_malformed_outcome (c : Client)
  (args : list (SignedOrder * OrderType)) (r : Response)
  (good : list JSON) (outcomes : list OrderPostResponse) (bad : JSON)
  (rest : list JSON) :
  post_orders_endpoint args = Responded r ->
  is_success r = true ->
  body r = Some (JArray (good ++ bad :: rest)) ->
  Forall2 parses_to good outcomes ->
  (forall resp, ~ parses_to bad resp) ->
  (fst (post_orders args c) = Raise TypeError
   \/ fst (post_orders args c) = Raise ValidationError)
  /\ log (snd (post_orders args c)) = log c ++ warnings 0 outcomes.
Proof.
  intros Hpost Hs Hbody Hgood Hbad.
  unfold post_orders. erewrite bind_ok by reflexivity.
  unfold try_except_HTTPStatusError.
  erewrite bind_ok by (unfold http_post; rewrite Hpost; reflexivity).
  erewrite bind_ok by (unfold raise_for_status; rewrite Hs; reflexivity).
  erewrite bind_ok by (unfold response_json; rewrite Hbody; reflexivity).
  erewrite bind_ok by reflexivity.
  match goal with
  | |- context [bind (post_orders_loop 0 ?items []) _ ?c'] =>
      destruct (post_orders_loop_malformed good outcomes bad rest Hgood
                  Hbad 0 [] c') as (H1 & H2);
      destruct (post_orders_loop 0 items [] c') as [res c2] eqn:E
  end.
  simpl in H1, H2.
  destruct H1 as [-> | ->]; erewrite bind_raise by exact E; simpl; auto.
Qed.

End ClobSubmissionResults.

Lemma post_order_none_means_rejected_witness :
  exists r fields detail,
    Clob.post_order_endpoint (Exchange := Fixtures.exchange) 2%nat Clob.GTC
    = Clob.Responded r
    /\ Clob.is_success r = false
    /\ body r = Some (JObject fields)
    /\ dict_get fields "error" = Some detail.
Proof.
  destruct (post_order_none_means_rejected
              (EX := Fixtures.exchange) (BU := Fixtures.builder)
              2%nat Clob.GTC Clob.new_client eq_refl)
    as (r & fields & detail & H1 & H2 & H3 & H4 & _).
  exists r, fields, detail. by repeat split.
Defined.

Lemma post_order_success_response_witness :
  fst (Clob.post_order (EX := Fixtures.exchange) (BU := Fixtures.builder)
         7%nat Clob.GTC Clob.new_client)
  = Clob.Ok (Some (Clob.mkOrderPostResponse "" "" true)).
Proof.
  exact (proj1 (post_order_success_response
                  (EX := Fixtures.exchange) (BU := Fixtures.builder)
                  7%nat Clob.GTC Clob.new_client _ eq_refl eq_refl)).
Defined.

Lemma post_orders_malformed_outcome_witness :
  let run :=
    Clob.post_orders (EX := exchange_with_malformed_outcome)
      (BU := Fixtures.builder) [(7%nat, Clob.GTC); (8%nat, Clob.GTC)]
      Clob.new_client in
  (fst run = Clob.Raise (Clob.External TypeError)
   \/ fst run = Clob.Raise (Clob.External ValidationError))
  /\ Clob.log (snd run) = [Clob.WarnOrderError 0 "bad price"].
Proof.
  refine (post_orders_malformed_outcome
            (EX := exchange_with_malformed_outcome) (BU := Fixtures.builder)
            Clob.new_client [(7%nat, Clob.GTC); (8%nat, Clob.GTC)] _
            [JObject [("errorMsg", JString "bad price")]]
            [Clob.mkOrderPostResponse "bad price" "" false]
            (JNumber 1) [] eq_refl eq_refl eq_refl _ _).
  - repeat constructor. eexists. split; reflexivity.
  - intros resp (fields & Hf & _). discriminate.
Defined.

(** ** Properties of the credentials *)

Section CredentialProperties.

Import ClobReads.
Context {KS : KeyService}.

(** X14: [create_or_derive_api_creds] always asks for a new key first; it
    asks for the derived key exactly when the creation is answered with an
    error status, whatever the status, and then its result is the result
    of the derivation alone; any other failure of the creation leaves
    without a second request. *)
Theorem derive_only_after_error_status (nonce : option Z) :
  let run := create_or_derive_api_creds nonce in
  (exists rest, fst run = PostCreateApiKey :: rest)
  /\ (GetDeriveApiKey ∈ fst run
      <-> exists r, create_api_key_endpoint nonce = Clob.Responded r
                    /\ Clob.is_success r = false)
  /\ (GetDeriveApiKey ∈ fst run ->
      run = ([PostCreateApiKey; GetDeriveApiKey],
             read_creds (derive_api_key_endpoint nonce)))
  /\ (GetDeriveApiKey ∉ fst run ->
      run = ([PostCreateApiKey],
             read_creds (create_api_key_endpoint nonce))).
Proof.
  unfold create_or_derive_api_creds, create_api_creds, derive_api_key,
    read_creds.
  destruct (create_api_key_endpoint nonce) as [r|]; simpl.
  - destruct (Clob.is_success r) eqn:Hs; simpl.
    + destruct (body r) as [[| | | | |fields]|]; simpl;
        try destruct (ApiCreds_validate fields); simpl;
        (split; [by eexists|]);
        (split; [split; [intros H; absurd_elem H
                        |intros (r' & [= <-] & Hr); congruence]|]);
        (split; [intros H; absurd_elem H | done]).
    + split; [by eexists|]. split.
      * split; [eauto|]. intros _. set_solver.
      * split; [done|]. intros H. exfalso. apply H. set_solver.
  - split; [by eexists|].
    split; [split; [intros H; absurd_elem H|intros (r' & [=] & _)]|].
    split; [intros H; absurd_elem H | done].
Qed.

End CredentialProperties.

Lemma derive_only_after_error_status_witness :
  ClobReads.create_or_derive_api_creds (KS := service_with_existing_key) None
  = ([ClobReads.PostCreateApiKey; ClobReads.GetDeriveApiKey],
     Clob.Ok (Websockets.mkApiCreds "k" "s" "p")).
Proof.
  destruct (derive_only_after_error_status (KS := service_with_existing_key)
              None) as (_ & Hiff & Hderived & _).
  apply Hderived, Hiff. eexists. split; reflexivity.
Defined.

(** ** Properties of the cursor pagination *)

Section CursorProperties.

Import ClobReads.
Context {T : Type}.
Variable END_CURSOR : string.
Variable endpoint : string -> Reply (Page T).

Lemma drain_chain (chain : list (string * Page T)) :
  forall (fuel : nat) (cursor : string) (results : list T)
    (requested : list string),
    linked END_CURSOR endpoint cursor chain ->
    length chain < fuel ->
    drain END_CURSOR endpoint fuel cursor results requested
    = (Gamma.Returned (results ++ concat (map (fun cp => data (snd cp)) chain)),
       requested ++ map fst chain).
Proof.
  induction chain as [|[c page] chain IH];
    intros fuel cursor results requested Hl Hfuel;
    (destruct fuel as [|fuel]; [simpl in Hfuel; lia|]); simpl in *.
  - subst cursor. rewrite String.eqb_refl. by rewrite !app_nil_r.
  - destruct Hl as (-> & Hne & Hpage & Hl).
    apply String.eqb_neq in Hne. rewrite Hne, Hpage.
    rewrite (IH fuel _ _ _ Hl) by lia.
    by rewrite <- !app_assoc.
Qed.

(** X15: the cursor loop of [get_orders] (and of [get_trades] and
    [get_reward_markets]) follows the cursors the exchange hands out: when
    the pages from the first cursor on are linked up to the sentinel, it
    requests each of their cursors once, in order, never the sentinel,
    and returns the items of the pages in that order; without a first
    cursor it starts from ["MA=="], and from the sentinel it returns the
    empty list without any request. *)
Theorem get_orders_follows_cursors (cursor : option string)
  (chain : list (string * Page T)) (fuel : nat) :
  linked END_CURSOR endpoint (default "MA==" cursor) chain ->
  length chain < fuel ->
  get_orders END_CURSOR endpoint cursor fuel
  = (Gamma.Returned (concat (map (fun cp => data (snd cp)) chain)),
     map fst chain)
  /\ END_CURSOR ∉ map fst chain.
Proof.
  intros Hl Hfuel. split.
  - unfold get_orders. by rewrite (drain_chain chain fuel _ [] [] Hl Hfuel).
  - clear Hfuel. revert Hl. generalize (default "MA==" cursor).
    induction chain as [|[c page] chain IH]; intros start Hl; simpl in *.
    + apply not_elem_of_nil.
    + destruct Hl as (-> & Hne & _ & Hl).
      apply not_elem_of_cons. split; [done|]. by eapply IH.
Qed.

(** X16: the recursion of [get_all_markets] is the pager of [get_orders]
    only as long as the call stack holds. When the sentinel of the loop
    is the one the recursion spells out and the pages from the cursor on
    are linked up to it, the loop returns their items whatever their
    number; the recursion, which adds an activation per page, returns the
    same items after the same requests when the pages and the final call
    fit into the depth left, and raises [RecursionError] when they do
    not, losing the pages it fetched. *)
Theorem recursion_agrees_within_depth (chain : list (string * Page T))
  (cursor : string) (depth fuel : nat) :
  END_CURSOR = "LTE="%string ->
  linked END_CURSOR endpoint cursor chain ->
  length chain < fuel ->
  let items := concat (map (fun cp => data (snd cp)) chain) in
  drain END_CURSOR endpoint fuel cursor [] []
  = (Gamma.Returned items, map fst chain)
  /\ (length chain < depth ->
      get_all_markets endpoint depth cursor = (Done items, map fst chain))
  /\ (depth <= length chain ->
      fst (get_all_markets endpoint depth cursor) = RecursionError).
Proof.
  intros HE Hl Hfuel items. subst items. split; [|split].
  - by rewrite (drain_chain chain fuel cursor [] [] Hl Hfuel).
  - clear Hfuel. rewrite HE in Hl. revert cursor depth Hl.
    induction chain as [|[c page] chain IH]; intros cursor depth Hl Hd;
      (destruct depth as [|depth]; [simpl in Hd; lia|]); simpl in *.
    + by subst cursor.
    + destruct Hl as (-> & Hne & Hpage & Hl).
      apply String.eqb_neq in Hne. rewrite Hne, Hpage.
      by rewrite (IH _ depth Hl) by lia.
  - clear Hfuel. rewrite HE in Hl. revert cursor depth Hl.
    induction chain as [|[c page] chain IH]; intros cursor depth Hl Hd;
      (destruct depth as [|depth]; [reflexivity|]); simpl in *; [lia|].
    destruct Hl as (-> & Hne & Hpage & Hl).
    apply String.eqb_neq in Hne. rewrite Hne, Hpage.
    specialize (IH _ depth Hl ltac:(lia)).
    destruct (get_all_markets endpoint depth (next_cursor page)) as [r reqs].
    simpl in IH. by subst r.
Qed.

(** X17: the pager has no end of its own: as long as the exchange keeps
    answering with a cursor that is not the sentinel, the loop keeps
    requesting, one request per round, and has not returned. *)
Theorem drain_without_sentinel_never_returns (fuel : nat) (cursor : string)
  (results : list T) (requested : list string) :
  (forall c, exists page,
     endpoint c = Got page /\ next_cursor page <> END_CURSOR) ->
  cursor <> END_CURSOR ->
  fst (drain END_CURSOR endpoint fuel cursor results requested) = Gamma.Running
  /\ length (snd (drain END_CURSOR endpoint fuel cursor results requested))
     = length requested + fuel.
Proof.
  intros Hpages. revert cursor results requested.
  induction fuel as [|fuel IH]; intros cursor results requested Hne; simpl.
  - split; [done|lia].
  - apply String.eqb_neq in Hne. rewrite Hne.
    destruct (Hpages cursor) as (page & -> & Hnext).
    destruct (IH (next_cursor page) (results ++ data page)
                (requested ++ [cursor]) Hnext) as [H1 H2].
    split; [exact H1|]. rewrite H2, length_app. simpl. lia.
Qed.

End CursorProperties.

Lemma get_orders_follows_cursors_witness :
  ClobReads.get_orders "LTE=" two_pages None 3
  = (Gamma.Returned [1; 2; 3], ["MA=="; "Mg=="]).
Proof.
  refine (proj1 (get_orders_follows_cursors "LTE=" two_pages None
                   [("MA=="%string, ClobReads.mkPage [1; 2] "Mg==");
                    ("Mg=="%string, ClobReads.mkPage [3] "LTE=")] 3 _ _)).
  - simpl. repeat split; discriminate.
  - simpl. lia.
Defined.

Lemma drain_without_sentinel_never_returns_witness :
  fst (ClobReads.get_orders "LTE=" same_cursor None 50) = Gamma.Running.
Proof.
  refine (proj1 (drain_without_sentinel_never_returns "LTE=" same_cursor 50
                   "MA==" [] [] _ _)).
  - intros c. eexists. split; [reflexivity|discriminate].
  - discriminate.
Defined.

Lemma recursion_agrees_within_depth_witness :
  ClobReads.get_all_markets two_pages 3 "MA=="
  = (ClobReads.Done [1; 2; 3], ["MA=="; "Mg=="])
  /\ fst (ClobReads.get_all_markets two_pages 2 "MA==")
     = ClobReads.RecursionError
  /\ ClobReads.get_orders "LTE=" two_pages None 3
     = (Gamma.Returned [1; 2; 3], ["MA=="; "Mg=="]).
Proof.
  assert (Hl : ClobReads.linked "LTE=" two_pages "MA=="
                 [("MA=="%string, ClobReads.mkPage [1; 2] "Mg==");
                  ("Mg=="%string, ClobReads.mkPage [3] "LTE=")]).
  { simpl. repeat split; discriminate. }
  split; [|split].
  - refine (proj1 (proj2 (recursion_agrees_within_depth "LTE=" two_pages
                            _ "MA==" 3 3 eq_refl Hl _)) _); simpl; lia.
  - refine (proj2 (proj2 (recursion_agrees_within_depth "LTE=" two_pages
                            _ "MA==" 2 3 eq_refl Hl _)) _); simpl; lia.
  - refine (proj1 (recursion_agrees_within_depth "LTE=" two_pages
                     _ "MA==" 3 3 eq_refl Hl _)); simpl; lia.
Defined.

(** ** Properties of the price history requests *)

Section HistoryProperties.

Import ClobHistory.
Context {PriceHistory : Type}.
Variable timestamp_seconds : Z -> Z.
Variable endpoint : Params -> Reply PriceHistory.

(** X18: [get_history] raises [ValueError] exactly when no time is given
    or the end is more than 15 days and one second after the start, and
    then it sends no request; in every other case it sends one request,
    which carries the times in whole seconds. A range of exactly 15 days
    and one second is accepted, and so is an end time without a start
    time. *)
Theorem get_history_range_check (token_id : string)
  (start_time end_time : option Z) (fidelity : Z) :
  let run :=
    get_history timestamp_seconds endpoint token_id start_time end_time
      fidelity in
  let rejected :=
    (start_time = None /\ end_time = None)
    \/ exists s e, start_time = Some s /\ end_time = Some e
                   /\ (1296001 * 1000000 < e - s)%Z in
  (rejected -> run = ([], Clob.Raise Clob.ValueError))
  /\ (~ rejected ->
      snd run <> Clob.Raise Clob.ValueError
      /\ fst run
         = [ {| market := token_id; interval := None; fidelity := fidelity;
                startTs := timestamp_seconds <$> start_time;
                endTs := timestamp_seconds <$> end_time |} ]).
Proof.
  intros run rejected. subst run rejected.
  unfold get_history, fifteen_days_and_a_second, microseconds_per_second.
  split.
  - intros [[-> ->] | (s & e & -> & -> & Hlt)]; [done|].
    replace (s + 1296001 * 1000000 <? e)%Z with true; [done|].
    symmetry. apply Z.ltb_lt. lia.
  - intros Hok.
    destruct start_time as [s|], end_time as [e|]; simpl.
    + destruct (s + 1296001 * 1000000 <? e)%Z eqn:E.
      * exfalso. apply Hok. right. exists s, e. apply Z.ltb_lt in E.
        repeat split; lia.
      * unfold request. simpl. split; [|done].
        by destruct (endpoint _).
    + unfold request. simpl. split; [|done]. by destruct (endpoint _).
    + unfold request. simpl. split; [|done]. by destruct (endpoint _).
    + exfalso. apply Hok. by left.
Qed.

(** The table has one minimum per interval. *)
Lemma lookup_fidelity_table (interval : string) (minimum : Z) :
  lookup_fidelity min_fidelities interval = Some minimum
  <-> (interval, minimum) ∈ min_fidelities.
Proof.
  unfold min_fidelities. split.
  - cbn [lookup_fidelity].
    repeat match goal with
           | |- context [String.eqb ?k interval] =>
               let E := fresh "E" in
               destruct (String.eqb k interval) eqn:E;
               [apply String.eqb_eq in E; subst interval; intros [= <-];
                repeat first [ apply list_elem_of_here
                             | apply list_elem_of_further ]
               | clear E]
           end.
    discriminate.
  - intros Hin.
    repeat (apply elem_of_cons in Hin as [[= -> ->]|Hin]; [reflexivity|]).
    by apply elem_of_nil in Hin.
Qed.

(** X19: every request that [get_recent_history] sends has a fidelity of
    at least the minimum of its interval, hence of at least 1, and an
    interval of the table; a fidelity below the minimum is refused with
    [ValueError] and an interval that is not in the table with
    [KeyError], before anything is sent. *)
Theorem get_recent_history_sends_valid (token_id interval : string)
  (fidelity : Z) :
  let run := get_recent_history endpoint token_id interval fidelity in
  (forall params,
     params ∈ fst run ->
     exists minimum,
       (interval, minimum) ∈ min_fidelities
       /\ (1 <= minimum <= ClobHistory.fidelity params)%Z
       /\ ClobHistory.interval params = Some interval
       /\ market params = token_id)
  /\ (forall minimum,
        (interval, minimum) ∈ min_fidelities ->
        (fidelity < minimum)%Z ->
        run = ([], Clob.Raise Clob.ValueError))
  /\ ((forall minimum, (interval, minimum) ∉ min_fidelities) ->
      run = ([], Clob.Raise (Clob.External KeyError))).
Proof.
  intros run. subst run. unfold get_recent_history.
  pose proof (lookup_fidelity_table interval) as Htable.
  destruct (lookup_fidelity min_fidelities interval) as [minimum|].
  - assert (Hin : (interval, minimum) ∈ min_fidelities) by by apply Htable.
    assert (Hmin : (1 <= minimum)%Z).
    { clear -Hin. unfold min_fidelities in Hin.
      repeat (apply elem_of_cons in Hin as [[= -> ->]|Hin]; [lia|]).
      by apply elem_of_nil in Hin. }
    split; [|split].
    + intros params.
      destruct (fidelity <? minimum)%Z eqn:E;
        [intros H; by apply elem_of_nil in H|].
      apply Z.ltb_ge in E. unfold request. simpl.
      intros ->%list_elem_of_singleton. exists minimum. simpl.
      repeat split; try done; lia.
    + intros minimum' Hin' Hlt. apply Htable in Hin'.
      injection Hin' as <-.
      by replace (fidelity <? minimum)%Z with true
        by (symmetry; apply Z.ltb_lt; lia).
    + intros Hout. by destruct (Hout minimum).
  - split; [|split].
    + intros params H. by apply elem_of_nil in H.
    + intros minimum Hin. apply Htable in Hin. discriminate.
    + done.
Qed.

End HistoryProperties.

Lemma get_recent_history_sends_valid_witness :
  (exists minimum,
     ("1w"%string, minimum) ∈ ClobHistory.min_fidelities
     /\ (1 <= minimum <= 5)%Z)
  /\ ClobHistory.get_recent_history (fun _ => Got tt) "T" "1w" 4
     = ([], Clob.Raise Clob.ValueError).
Proof.
  split.
  - destruct (proj1 (get_recent_history_sends_valid (fun _ => Got tt)
                       "T" "1w" 5)
                (ClobHistory.mkParams "T" (Some "1w"%string) 5 None None))
      as (minimum & H1 & H2 & _).
    + vm_compute. apply list_elem_of_here.
    + exists minimum. split; [exact H1 | exact H2].
  - refine (proj1 (proj2 (get_recent_history_sends_valid (fun _ => Got tt)
                            "T" "1w" 4)) 5%Z _ _); [|lia].
    unfold ClobHistory.min_fidelities.
    repeat first [ apply list_elem_of_here | apply list_elem_of_further ].
Defined.

Lemma get_history_range_check_witness :
  ClobHistory.get_history (fun t => Z.quot t 1000000) (fun _ => Got tt) "T"
    (Some 0%Z) (Some 1296001000001%Z) 2
  = ([], Clob.Raise Clob.ValueError)
  /\ fst (ClobHistory.get_history (fun t => Z.quot t 1000000) (fun _ => Got tt) "T"
            (Some 0%Z) (Some 1296001000000%Z) 2)
     = [ClobHistory.mkParams "T" None 2 (Some 0%Z) (Some 1296001%Z)].
Proof.
  split.
  - apply (get_history_range_check (fun t => Z.quot t 1000000)
             (fun _ => Got tt) "T" (Some 0%Z) (Some 1296001000001%Z) 2).
    right. exists 0%Z, 1296001000001%Z. repeat split; lia.
  - apply (get_history_range_check (fun t => Z.quot t 1000000)
             (fun _ => Got tt) "T" (Some 0%Z) (Some 1296001000000%Z) 2).
    intros [[H _] | (s & e & [= <-] & [= <-] & H)]; [discriminate|lia].
Defined.

(** * Further properties of the websocket client *)

(** ** Properties of the dispatch *)

Section DispatchProperties.

Import Websockets.
Context {CO : Codec}.

(** An event type that the match selects is one of its arms. *)
Lemma select_in_arms (arms : list (string * EventType)) (d : option JSON)
  (ty : EventType) :
  select arms d = Some ty -> ty ∈ map snd arms.
Proof.
  unfold select.
  destruct d as [[| | |s| |]|]; try discriminate.
  destruct (List.find _ arms) as [[k v]|] eqn:Hf; [|discriminate].
  intros [= <-]. apply List.find_some in Hf as [Hin _].
  apply list_elem_of_In in Hin.
  by apply (list_elem_of_fmap_2 snd) in Hin.
Qed.

Lemma dispatch_typed_in_arms (message : JSON) (ty : EventType)
  (fields : list (string * JSON)) (field : string)
  (arms : list (string * EventType)) :
  dispatch field arms message = Ok (Typed ty fields) ->
  ty ∈ map snd arms.
Proof.
  unfold dispatch, construct.
  destruct message as [| | | | |fields']; try discriminate.
  destruct (select arms (dict_get fields' field)) as [ty'|] eqn:Hty;
    [|discriminate].
  destruct (accepts ty' fields'); [|discriminate].
  intros [= <- <-]. by eapply select_in_arms.
Qed.

(** A discriminant that is no string naming an arm selects nothing. *)
Lemma select_none (arms : list (string * EventType)) (d : option JSON) :
  (forall s, d = Some (JString s) -> s ∉ map fst arms) ->
  select arms d = None.
Proof.
  intros Hd. unfold select.
  destruct d as [[| | |s| |]|]; try reflexivity.
  destruct (List.find _ arms) as [[k v]|] eqn:Hf; [|reflexivity].
  apply List.find_some in Hf as [Hin Heq]. simpl in Heq.
  apply String.eqb_eq in Heq. subst k.
  exfalso. apply (Hd s eq_refl).
  apply list_elem_of_In in Hin.
  by apply (list_elem_of_fmap_2 fst) in Hin.
Qed.

(** X20: which messages make a parser fail. The dispatch that the three
    parsers share raises [AttributeError] exactly for a message that is
    no dict, and [ValidationError] exactly when the discriminant selects
    an event type whose constructor rejects the dict; it raises nothing
    else. A dict whose discriminant is missing, is no string or names no
    case is not an error: the message is returned as it is. *)
Theorem dispatch_failures (field : string)
  (arms : list (string * EventType)) (message : JSON) :
  (dispatch field arms message = Raise AttributeError
   <-> forall fields, message <> JObject fields)
  /\ (dispatch field arms message = Raise ValidationError
      <-> exists fields ty,
            message = JObject fields
            /\ select arms (dict_get fields field) = Some ty
            /\ accepts ty fields = false)
  /\ (forall e, dispatch field arms message = Raise e ->
        e = AttributeError \/ e = ValidationError)
  /\ (forall fields,
        message = JObject fields ->
        (forall s, dict_get fields field = Some (JString s) ->
                   s ∉ map fst arms) ->
        dispatch field arms message = Ok (Plain message)).
Proof.
  pose proof (select_none arms) as Hnone.
  unfold dispatch, construct.
  destruct message as [| | | | |fields]; simpl;
    try (split; [split; [intros _ fields; discriminate|done]|];
         split; [split; [discriminate|by intros (? & ? & [=] & _)]|];
         split; [intros e [= <-]; by left|intros ? [=]]).
  split; [split; [|intros H; by destruct (H fields)]|].
  { destruct (select arms (dict_get fields field)) as [ty|];
      [destruct (accepts ty fields)|]; discriminate. }
  split; [|split].
  - destruct (select arms (dict_get fields field)) as [ty|] eqn:Hty.
    + destruct (accepts ty fields) eqn:Ha.
      * split; [discriminate|].
        intros (fields' & ty' & [= <-] & Hty' & Ha'). congruence.
      * split; [|done]. intros _. by exists fields, ty.
    + split; [discriminate|].
      intros (fields' & ty' & [= <-] & Hty' & _). congruence.
  - destruct (select arms (dict_get fields field)) as [ty|];
      [destruct (accepts ty fields)|]; try discriminate.
    intros e [= <-]. by right.
  - intros fields' [= <-] Hd. by rewrite (Hnone _ Hd).
Qed.

(** X21: each channel makes events of its own types only: the market
    parser never returns a user or live-data event, and the user parser
    returns order and trade events only. *)
Theorem parsers_keep_to_their_channel (message : JSON) (ty : EventType)
  (fields : list (string * JSON)) :
  (parse_market_event message = Ok (Typed ty fields) ->
   ty ∈ [OrderBookSummaryEvent; PriceChangeEvent; TickSizeChangeEvent;
         LastTradePriceEvent])
  /\ (parse_user_event message = Ok (Typed ty fields) ->
      ty ∈ [OrderEvent; TradeEvent])
  /\ (parse_live_data_event message = Ok (Typed ty fields) ->
      ty ∉ [OrderBookSummaryEvent; PriceChangeEvent; TickSizeChangeEvent;
            LastTradePriceEvent; OrderEvent; TradeEvent]).
Proof.
  pose proof (dispatch_typed_in_arms message ty fields) as H.
  repeat split.
  - intros Hd. exact (H _ _ Hd).
  - intros Hd. exact (H _ _ Hd).
  - intros Hd Hin. apply H in Hd. simpl in Hd.
    repeat (apply elem_of_cons in Hin as [->|Hin]; [absurd_elem Hd|]).
    by apply elem_of_nil in Hin.
Qed.

End DispatchProperties.

Lemma dispatch_failures_witness :
  Websockets.parse_market_event (CO := Fixtures.codec)
    (JObject [("event_type", JString "pong")])
  = Websockets.Ok (Websockets.Plain (JObject [("event_type", JString "pong")])).
Proof.
  refine (proj2 (proj2 (proj2 (dispatch_failures (CO := Fixtures.codec)
                                 "event_type" _ _)))
            [("event_type", JString "pong")] eq_refl _).
  intros s [= <-] Hin. simpl in Hin. absurd_elem Hin.
Defined.

Lemma parsers_keep_to_their_channel_witness :
  Websockets.OrderBookSummaryEvent
  ∈ [Websockets.OrderBookSummaryEvent; Websockets.PriceChangeEvent;
     Websockets.TickSizeChangeEvent; Websockets.LastTradePriceEvent].
Proof.
  exact (proj1 (parsers_keep_to_their_channel (CO := Fixtures.codec)
                  (JObject Fixtures.book_message)
                  Websockets.OrderBookSummaryEvent Fixtures.book_message)
           eq_refl).
Defined.

(** ** Properties of the default processors *)

Section ProcessorProperties.

Import Websockets WebsocketsSync.
Context {CO : Codec}.



(** X23: a list frame is printed as order book events whatever the
    ["event_type"] of its items says: when every item is a dict that the
    order book constructor accepts, the sync processor prints each as an
    [OrderBookSummaryEvent], in order, while the async stream yields each
    as the type its ["event_type"] selects. *)
Theorem list_frame_is_printed_as_books (text : string)
  (items : list (list (string * JSON))) :
  json_loads text = Some (JArray (map JObject items)) ->
  Forall (fun fields => accepts OrderBookSummaryEvent fields = true) items ->
  _process_market_event text
  = (map (fun fields => PrintEvent (Typed OrderBookSummaryEvent fields))
       items, None).
Proof.
  intros Hj Hall. unfold _process_market_event. rewrite Hj. clear Hj.
  induction Hall as [|fields items Ha _ IH]; simpl; [done|].
  rewrite Ha. simpl in IH. by rewrite IH.
Qed.

(** X24: a dict without ["event_type"] passes through the async market
    parser unchanged, but makes the sync default processors raise
    [KeyError] without printing anything. *)
Theorem missing_event_type_sync_and_async (text : string)
  (fields : list (string * JSON)) :
  json_loads text = Some (JObject fields) ->
  dict_get fields "event_type" = None ->
  market_frame true text = ([Yield (Plain (JObject fields))], None)
  /\ _process_market_event text = ([], Some KeyError)
  /\ _process_user_event text = ([], Some KeyError).
Proof.
  intros Hj Hd.
  unfold market_frame, _process_market_event, _process_user_event,
    process_dict, yield_one, parse_or_not, parse_market_event, dispatch.
  rewrite Hj, Hd. simpl. done.
Qed.

End ProcessorProperties.


Lemma list_frame_is_printed_as_books_witness :
  WebsocketsSync._process_market_event (CO := Fixtures.codec) "[book]"
  = ([WebsocketsSync.PrintEvent
        (Websockets.Typed Websockets.OrderBookSummaryEvent
           Fixtures.book_message)], None).
Proof.
  refine (list_frame_is_printed_as_books (CO := Fixtures.codec) "[book]"
            [Fixtures.book_message] eq_refl _).
  by repeat constructor.
Defined.

Lemma missing_event_type_sync_and_async_witness :
  Websockets.market_frame (CO := codec_with_empty_dict) true "{}"
  = ([Websockets.Yield (Websockets.Plain (JObject []))], None)
  /\ WebsocketsSync._process_market_event (CO := codec_with_empty_dict) "{}"
     = ([], Some WebsocketsSync.KeyError).
Proof.
  destruct (missing_event_type_sync_and_async (CO := codec_with_empty_dict)
              "{}" [] eq_refl eq_refl) as (H1 & H2 & _).
  by split.
Defined.

(** ** Properties of the handshakes and of the streams *)


(** The subscriptions that go on the wire: with credentials injected when
    a subscription needs them. *)
Definition sent_subscriptions (subscriptions : list (list (string * JSON)))
  (creds : option Websockets.ApiCreds) : list (list (string * JSON)) :=
  match creds with
  | Some cr =>
      if Websockets.needs_auth subscriptions
      then Websockets.inject_creds subscriptions cr
      else subscriptions
  | None => subscriptions
  end.

Lemma dict_set_twice (fields : list (string * JSON)) (key : string)
  (v : JSON) :
  Websockets.dict_set (Websockets.dict_set fields key v) key v
  = Websockets.dict_set fields key v.
Proof.
  induction fields as [|[k x] rest IH]; simpl.
  - by rewrite String.eqb_refl.
  - destruct (String.eqb k key) eqn:E; simpl; rewrite E; [done|].
    by rewrite IH.
Qed.

Lemma is_clob_user_dict_set (sub : list (string * JSON)) (v : JSON) :
  Websockets.is_clob_user (Websockets.dict_set sub "clob_auth" v)
  = Websockets.is_clob_user sub.
Proof.
  unfold Websockets.is_clob_user. by rewrite dict_set_get_other.
Qed.

Lemma inject_creds_twice (subscriptions : list (list (string * JSON)))
  (creds : Websockets.ApiCreds) :
  Websockets.inject_creds (Websockets.inject_creds subscriptions creds) creds
  = Websockets.inject_creds subscriptions creds.
Proof.
  unfold Websockets.inject_creds. rewrite map_map.
  apply map_ext. intros sub.
  destruct (Websockets.is_clob_user sub) eqn:E.
  - by rewrite is_clob_user_dict_set, E, dict_set_twice.
  - by rewrite E.
Qed.

Section HandshakeProperties.

Import Websockets.

(** X25: the credentials end up in the entries for ["clob_user"] and
    nowhere else: after the injection such an entry has [clob_auth] set
    to the dumped credentials, replacing one the caller may have put
    there, and all its other keys as before; every other entry is
    unchanged; and injecting again changes nothing. *)
Theorem inject_creds_entries (subscriptions : list (list (string * JSON)))
  (creds : ApiCreds) (i : nat) (sub : list (string * JSON)) :
  subscriptions !! i = Some sub ->
  exists sub',
    inject_creds subscriptions creds !! i = Some sub'
    /\ (is_clob_user sub = true ->
        dict_get sub' "clob_auth" = Some (model_dump creds)
        /\ forall key, key <> "clob_auth"%string ->
             dict_get sub' key = dict_get sub key)
    /\ (is_clob_user sub = false -> sub' = sub)
    /\ inject_creds (inject_creds subscriptions creds) creds !! i
       = Some sub'.
Proof.
  intros Hi. pose proof (inject_creds_lookup _ creds _ _ Hi) as Hl.
  eexists. split; [exact Hl|].
  rewrite inject_creds_twice. split; [|split; [|exact Hl]].
  - intros ->. split; [apply dict_set_get|].
    intros key Hne. by apply dict_set_get_other.
  - by intros ->.
Qed.



Context {CO : Codec}.







(** X28: with [parse=True] one frame that is JSON but no dict ends a
    stream for good: a number, a string, a boolean or null in the market
    stream, and these or an array in the live-data stream (given
    credentials when a subscription needs them), raise [AttributeError]
    out of the generator right after the handshake of the first
    connection: nothing is yielded, the later frames are not read and no
    reconnection takes place. *)
Theorem scalar_frame_ends_parsed_stream (message : string) (data : JSON)
  (messages : list string) (connections : list (list string)) :
  json_loads message = Some data ->
  (forall fields, data <> JObject fields) ->
  (forall token_ids,
     (forall items, data <> JArray items) ->
     amarket_stream token_ids true ((message :: messages) :: connections)
     = ([Connect url_market;
         Send (JObject [("assets_ids", JArray (map JString token_ids))])],
        Some AttributeError))
  /\ (forall subscriptions creds,
        (needs_auth subscriptions = true -> creds <> None) ->
        alive_data_stream subscriptions creds true
          ((message :: messages) :: connections)
        = ([Connect url_live_data;
            Send (subscribe_payload (sent_subscriptions subscriptions creds))],
           Some AttributeError)).
Proof.
  intros Hj Hdict. split.
  - intros token_ids Harr. unfold amarket_stream. simpl.
    unfold market_frame. rewrite Hj.
    destruct data as [| | | |items|fields]; try done.
    + by destruct (Harr items).
    + by destruct (Hdict fields).
  - intros subscriptions creds Hcreds.
    unfold alive_data_stream, sent_subscriptions.
    destruct (needs_auth subscriptions) eqn:Hn.
    + destruct creds as [cr|]; [|by destruct Hcreds]. simpl.
      unfold single_frame. rewrite Hj.
      destruct data as [| | | |items|fields]; try done.
      by destruct (Hdict fields).
    + assert (Hsame : match creds with Some _ | _ => subscriptions end
                      = subscriptions) by by destruct creds.
      destruct creds; simpl; unfold single_frame; rewrite Hj;
        destruct data as [| | | |items|fields]; try done;
        by destruct (Hdict fields).
Qed.

End HandshakeProperties.

Lemma inject_creds_entries_witness :
  exists sub',
    Websockets.inject_creds
      [[("topic", JString "clob_user"); ("clob_auth", JNull)];
       [("topic", JString "activity")]]
      (Websockets.mkApiCreds "k" "s" "p") !! 0 = Some sub'
    /\ dict_get sub' "clob_auth"
       = Some (Websockets.model_dump (Websockets.mkApiCreds "k" "s" "p")).
Proof.
  destruct (inject_creds_entries
              [[("topic", JString "clob_user"); ("clob_auth", JNull)];
               [("topic", JString "activity")]]
              (Websockets.mkApiCreds "k" "s" "p") 0 _ eq_refl)
    as (sub' & H1 & H2 & _).
  exists sub'. split; [exact H1|]. by apply H2.
Defined.


Lemma scalar_frame_ends_parsed_stream_witness :
  Websockets.amarket_stream (CO := codec_with_number) ["T"] true
    [["1"; "pong"]; ["pong"]]
  = ([Websockets.Connect Websockets.url_market;
      Websockets.Send (JObject [("assets_ids", JArray [JString "T"])])],
     Some Websockets.AttributeError).
Proof.
  refine (proj1 (scalar_frame_ends_parsed_stream (CO := codec_with_number)
                   "1" (JNumber 1) ["pong"] [["pong"]] eq_refl _)
            ["T"] _).
  - intros fields. discriminate.
  - intros items. discriminate.
Defined.


(** * Further properties of the fetch-all loops *)

Section GammaFetchAllMore.

Import Gamma.
Context {T : Type}.
Variable endpoint : Z -> Z -> Reply (list T).

(** The loop from page [k] on, when the pages [k .. n - 1] are full and
    the request for page [n] raises. *)
Lemma get_all_loop_raises (default_limit page : Z) (kwargs : Kwargs)
  (pages : nat -> list T) (n : nat) (e : ExternalExn) :
  (forall i, i < n ->
     get_page endpoint default_limit kwargs (page * Z.of_nat i)
     = Got (pages i)
     /\ (page <= Z.of_nat (length (pages i)))%Z) ->
  get_page endpoint default_limit kwargs (page * Z.of_nat n) = Fault e ->
  forall fuel k items requested,
    k <= n -> n - k < fuel ->
    get_all_loop endpoint default_limit page kwargs fuel
      (page * Z.of_nat k) items requested
    = (Raised e,
       requested ++ map (fun i => (page * Z.of_nat i)%Z) (seq k (S n - k))).
Proof.
  intros Hpages Hfail.
  induction fuel as [|fuel IH]; intros k items requested Hk Hfuel; [lia|].
  simpl. destruct (decide (k = n)) as [->|Hne].
  - rewrite Hfail. replace (S n - n) with 1 by lia. done.
  - destruct (Hpages k ltac:(lia)) as [-> Hfull].
    replace (Z.of_nat (length (pages k)) <? page)%Z with false
      by (symmetry; apply Z.ltb_ge; lia).
    replace (page * Z.of_nat k + page)%Z with (page * Z.of_nat (S k))%Z
      by lia.
    rewrite IH by lia.
    replace (S n - k) with (S (S n - S k)) by lia. simpl.
    by rewrite <- !app_assoc.
Qed.

(** X29: the fetch-all loops of the tags, the series and the teams page
    like the one of the events, each with the default page size of its
    page method, 300 for tags and series and 500 for teams: they go on
    while the page holds at least that many items, stop at the first
    shorter page and return the pages concatenated in order. *)
Theorem fetch_all_siblings_short_page (kwargs : Kwargs)
  (pages : nat -> list T) (n fuel : nat) (page : Z) :
  (forall i, i <= n ->
     get_page endpoint page kwargs (page * Z.of_nat i) = Got (pages i)) ->
  (forall i, i < n -> (page <= Z.of_nat (length (pages i)))%Z) ->
  (Z.of_nat (length (pages n)) < page)%Z ->
  n < fuel ->
  let result :=
    (Returned (concat (map pages (seq 0 (S n)))),
     map (fun i => (page * Z.of_nat i)%Z) (seq 0 (S n))) in
  (page = 300%Z ->
   get_all_tags endpoint kwargs fuel = result
   /\ get_all_series endpoint kwargs fuel = result)
  /\ (page = 500%Z -> get_all_teams endpoint kwargs fuel = result).
Proof.
  intros Hpages Hfull Hshort Hfuel result. subst result.
  pose proof (get_all_loop_spec endpoint page page kwargs pages n Hpages
                Hfull Hshort fuel 0 [] []) as H.
  rewrite Z.mul_0_r in H. simpl in H.
  split; intros ->; unfold get_all_tags, get_all_series, get_all_teams;
    rewrite !H by lia; done.
Qed.

(** X30: a fetch-all call is all or nothing: when the request for a page
    raises after full pages, [get_all_events] raises that exception and
    the events of the pages before are lost to the caller; the failing
    offset is the last one requested. *)
Theorem get_all_events_page_failure (kwargs : Kwargs)
  (pages : nat -> list T) (n fuel : nat) (e : ExternalExn) :
  (forall i, i < n ->
     get_page endpoint 500 kwargs (500 * Z.of_nat i) = Got (pages i)
     /\ 500 <= length (pages i)) ->
  get_page endpoint 500 kwargs (500 * Z.of_nat n) = Fault e ->
  n < fuel ->
  get_all_events endpoint kwargs fuel
  = (Raised e, map (fun i => (500 * Z.of_nat i)%Z) (seq 0 (S n))).
Proof.
  intros Hpages Hfail Hfuel. unfold get_all_events.
  assert (Hpages' : forall i, i < n ->
            get_page endpoint 500 kwargs (500 * Z.of_nat i) = Got (pages i)
            /\ (500 <= Z.of_nat (length (pages i)))%Z).
  { intros i Hi. destruct (Hpages i Hi) as [H1 H2]. split; [done|lia]. }
  pose proof (get_all_loop_raises 500 500 kwargs pages n e Hpages' Hfail
                fuel 0 [] []) as H.
  rewrite Z.mul_0_r in H. simpl in H. rewrite H by lia. done.
Qed.

End GammaFetchAllMore.

Lemma fetch_all_siblings_short_page_witness :
  Gamma.get_all_tags tags_endpoint (Gamma.mkKwargs None) 4
  = (Gamma.Returned (seq 0 700), [0; 300; 600]%Z).
Proof.
  destruct (fetch_all_siblings_short_page tags_endpoint (Gamma.mkKwargs None)
              (fun i => seq (300 * i) (if decide (i < 2) then 300 else 100))
              2 4 300%Z) as [H _].
  - intros [|[|[|i]]] Hi; [vm_compute; reflexivity.. | lia].
  - intros [|[|i]] Hi; [vm_compute; discriminate.. | lia].
  - vm_compute. reflexivity.
  - lia.
  - destruct (H eq_refl) as [Htags _]. rewrite Htags.
    vm_compute. reflexivity.
Defined.

Lemma get_all_events_page_failure_witness :
  Gamma.get_all_events failing_events_endpoint (Gamma.mkKwargs None) 4
  = (Gamma.Raised RequestError, [0; 500]%Z).
Proof.
  refine (get_all_events_page_failure failing_events_endpoint
            (Gamma.mkKwargs None) (fun i => seq (500 * i) 500) 1 4
            RequestError _ eq_refl _).
  - intros [|i] Hi; [|lia]. split; [vm_compute; reflexivity|].
    rewrite length_seq. lia.
  - lia.
Defined.
